(** * Order lifecycle engine: creation, cancellation and detail assembly

    A shallow embedding of [src/services/orderService.js],
    [src/services/paymentService.js] and the create-order handler of
    [src/controllers/orderController.js].

    The Prisma client is modelled as a state-and-exception monad over the
    five relations of the schema.  A statement sent through the transaction
    client [tx] acts on the working state; [transaction] (Prisma's
    [$transaction]) discards the writes of a callback that throws.

    Conventions of the embedding:
    - identifiers, stock and quantities are integers ([Z]); a lookup by a
      key that the [INTEGER] key column cannot hold throws, as the client
      does;
    - monetary amounts ([DECIMAL(10,2)] columns) are integers counting
      cents, so [parseFloat] and the accumulation of the running total are
      exact;
    - the writes of the model do not test the ranges of the value columns
      ([INTEGER] stock and quantity, [DECIMAL(10,2)] amounts, the [SERIAL]
      key drawn): a statement that depends on a written value fitting its
      column says so in its hypotheses ([values_fit], [restock_fits]);
    - an order's status is the text of the [TEXT] column; the five
      documented values have names;
    - the [SERIAL] key of [orders] is drawn from a sequence which, as in
      PostgreSQL, is not rewound by a rollback; the keys of [order_items]
      and [payments] are never read by the code and are left out;
    - trace events written through [logger] are left out, and so are the
      two transaction timeouts.

    The last part runs the statements of two order creations side by side,
    on a store with READ COMMITTED isolation and row locks. *)

From stdpp Require Import gmap strings list fin_maps pretty.
From Stdlib Require Import ZArith Lia.

Local Open Scope Z_scope.

(** ** Data model *)

(** [orders.status] is a [TEXT] column with no constraint on its values. *)
Definition OrderStatus : Type := string.

Definition Pending : OrderStatus := "pending".
Definition Processing : OrderStatus := "processing".
Definition Shipped : OrderStatus := "shipped".
Definition Delivered : OrderStatus := "delivered".
Definition Cancelled : OrderStatus := "cancelled".

Inductive PaymentStatus := Succeeded | Failed.

#[global] Instance OrderStatus_eq_dec : EqDecision OrderStatus.
Proof. unfold OrderStatus. apply _. Defined.

#[global] Instance PaymentStatus_eq_dec : EqDecision PaymentStatus.
Proof. solve_decision. Defined.

Record User := mkUser { user_email : string; user_password : string }.

Record Product := mkProduct {
  product_name : string;
  product_price : Z;
  product_stock : Z
}.

Record Order := mkOrder {
  order_userId : Z;
  order_status : OrderStatus;
  order_totalAmount : Z;
  order_createdAt : Z
}.

Record OrderItem := mkOrderItem {
  item_orderId : Z;
  item_productId : Z;
  item_quantity : Z;
  item_price : Z
}.

Record Payment := mkPayment {
  payment_orderId : Z;
  payment_amount : Z;
  payment_status : PaymentStatus
}.

(** The five relations. *)
Record Store := mkStore {
  users : gmap Z User;
  products : gmap Z Product;
  orders : gmap Z Order;
  order_items : list OrderItem;
  payments : list Payment
}.

(** The database: the relations, the sequence behind [orders.id] and the
    server clock behind [CURRENT_TIMESTAMP]. *)
Record Db := mkDb {
  store : Store;
  orders_id_seq : Z;
  clock : Z
}.

(** [`${order.status}`] *)
Definition status_text (s : OrderStatus) : string := s.

(** ** Errors *)

Inductive Error :=
| UserNotFound
| ProductNotFound (productId : Z)
| InsufficientStock (name : string) (available requested : Z)
| PaymentFailed
| OrderNotFound
| NotCancelable (status : OrderStatus)
| StoreError (msg : string)
| TypeError (msg : string).

(** [error.message] *)
Definition message (e : Error) : string :=
  match e with
  | UserNotFound => "User not found"
  | ProductNotFound productId => "Product " +:+ pretty productId +:+ " not found"
  | InsufficientStock name available requested =>
      "Insufficient stock for product " +:+ name +:+ ". Available: " +:+
      pretty available +:+ ", Requested: " +:+ pretty requested
  | PaymentFailed => "Payment processing failed"
  | OrderNotFound => "Order not found"
  | NotCancelable status => "Cannot cancel order with status: " +:+ status_text status
  | StoreError msg => msg
  | TypeError msg => msg
  end.

Inductive outcome (A : Type) :=
| Ok (a : A)
| Throw (e : Error).
Arguments Ok {A} a.
Arguments Throw {A} e.

(** ** The transaction monad *)

Definition Tx (A : Type) : Type := Db → outcome A * Db.

#[global] Instance Tx_ret : MRet Tx := λ A a db, (Ok a, db).

#[global] Instance Tx_bind : MBind Tx := λ A B f m db,
  match m db with
  | (Ok a, db') => f a db'
  | (Throw e, db') => (Throw e, db')
  end.

Definition throw {A} (e : Error) : Tx A := λ db, (Throw e, db).

Definition with_store (f : Store → Store) (db : Db) : Db :=
  mkDb (f (store db)) (orders_id_seq db) (clock db).

Definition set_products (f : gmap Z Product → gmap Z Product) (s : Store) : Store :=
  mkStore (users s) (f (products s)) (orders s) (order_items s) (payments s).

Definition set_orders (f : gmap Z Order → gmap Z Order) (s : Store) : Store :=
  mkStore (users s) (products s) (f (orders s)) (order_items s) (payments s).

Definition set_order_items (f : list OrderItem → list OrderItem) (s : Store) : Store :=
  mkStore (users s) (products s) (orders s) (f (order_items s)) (payments s).

Definition set_payments (f : list Payment → list Payment) (s : Store) : Store :=
  mkStore (users s) (products s) (orders s) (order_items s) (f (payments s)).

(** [prisma.$transaction(callback)]: every write of the callback is
    committed when the callback returns and discarded when it throws.
    Values drawn from the sequence stay drawn. *)
Definition transaction {A} (body : Tx A) : Tx A := λ db,
  match body db with
  | (Ok a, db') => (Ok a, db')
  | (Throw e, db') => (Throw e, mkDb (store db) (orders_id_seq db') (clock db'))
  end.

(** ** Prisma statements *)

(** The values of an [INTEGER] column. *)
Definition int4 (n : Z) : Prop := -2147483648 ≤ n ≤ 2147483647.

#[global] Instance int4_dec n : Decision (int4 n).
Proof. unfold int4. apply _. Defined.

(** The client's error P2020, raised for a number that does not fit the
    column it is compared with.  Its message names none of the texts the
    handlers look for. *)
Definition value_out_of_range : Error :=
  StoreError "Value out of range for the type".

(** [findUnique({ where: { id } })] on a relation whose key is an
    [INTEGER] column.  A key outside the range of the column is refused
    with P2020 instead of resolving to no row; no row is ever stored under
    such a key. *)
Definition findUnique {A} (table : gmap Z A) (id : Z) : outcome (option A) :=
  match table !! id with
  | Some row => Ok (Some row)
  | None => if decide (int4 id) then Ok None else Throw value_out_of_range
  end.

(** [tx.user.findUnique({ where: { id } })] *)
Definition user_findUnique (id : Z) : Tx (option User) := λ db,
  (findUnique (users (store db)) id, db).

(** [tx.product.findUnique({ where: { id } })] *)
Definition product_findUnique (id : Z) : Tx (option Product) := λ db,
  (findUnique (products (store db)) id, db).

Definition add_stock (d : Z) (p : Product) : Product :=
  mkProduct (product_name p) (product_price p) (product_stock p + d).

Definition record_not_found : Error :=
  StoreError "An operation failed because it depends on one or more records that were required but not found.".

Definition unique_constraint_failed : Error :=
  StoreError "Unique constraint failed".

(** [tx.product.update({ where: { id }, data: { stock: { increment: n } } })];
    [update] throws when no row has the key.  The new stock is written
    whatever its size: that it fits the [INTEGER] column is a hypothesis
    ([restock_fits]) of the statements that need it. *)
Definition product_update_increment (id n : Z) : Tx Product := λ db,
  match products (store db) !! id with
  | Some p =>
      let p' := add_stock n p in
      (Ok p', with_store (set_products <[id := p']>) db)
  | None => (Throw record_not_found, db)
  end.

(** [tx.product.update({ where: { id }, data: { stock: { decrement: n } } })];
    as for the increment, that the new stock fits the column is a
    hypothesis ([decrements_fit]) of the statements that need it. *)
Definition product_update_decrement (id n : Z) : Tx Product := λ db,
  match products (store db) !! id with
  | Some p =>
      let p' := add_stock (- n) p in
      (Ok p', with_store (set_products <[id := p']>) db)
  | None => (Throw record_not_found, db)
  end.

(** One element of [orderItemsData]. *)
Record OrderItemData := mkOrderItemData {
  data_productId : Z;
  data_quantity : Z;
  data_price : Z
}.

Definition item_row (orderId : Z) (d : OrderItemData) : OrderItem :=
  mkOrderItem orderId (data_productId d) (data_quantity d) (data_price d).

(** [tx.order.create({ data: { userId, status, totalAmount,
    orderItems: { create: orderItemsData } }, ... })]: the key comes from
    the sequence, the creation time from the server clock; the order row
    and its item rows are written by the one statement.  That the key, the
    total and the prices fit their columns is a hypothesis ([values_fit])
    of the statements that need it. *)
Definition order_create (userId : Z) (status : OrderStatus) (totalAmount : Z)
    (orderItemsData : list OrderItemData) : Tx (Z * Order) := λ db,
  let id := orders_id_seq db in
  let db1 := mkDb (store db) (id + 1) (clock db) in
  match orders (store db) !! id with
  | Some _ => (Throw unique_constraint_failed, db1)
  | None =>
      let o := mkOrder userId status totalAmount (clock db) in
      (Ok (id, o),
       with_store (λ s, set_order_items (λ l, l ++ (item_row id <$> orderItemsData))
                          (set_orders <[id := o]> s)) db1)
  end.

(** [tx.payment.create({ data: { orderId, amount, status } })];
    [payments.order_id] is unique. *)
Definition payment_create (orderId amount : Z) (status : PaymentStatus) : Tx () := λ db,
  if bool_decide (Exists (λ p, payment_orderId p = orderId) (payments (store db)))
  then (Throw unique_constraint_failed, db)
  else (Ok (), with_store (set_payments (λ l, l ++ [mkPayment orderId amount status])) db).

Definition items_of (orderId : Z) (l : list OrderItem) : list OrderItem :=
  filter (λ it, item_orderId it = orderId) l.

(** [tx.order.findUnique({ where: { id }, include: { orderItems: true } })] *)
Definition order_findUnique_with_items (id : Z) : Tx (option (Order * list OrderItem)) := λ db,
  match findUnique (orders (store db)) id with
  | Ok order => (Ok ((λ o, (o, items_of id (order_items (store db)))) <$> order), db)
  | Throw e => (Throw e, db)
  end.

Definition with_status (st : OrderStatus) (o : Order) : Order :=
  mkOrder (order_userId o) st (order_totalAmount o) (order_createdAt o).

(** [tx.order.update({ where: { id }, data: { status } })] *)
Definition order_update_status (id : Z) (st : OrderStatus) : Tx Order := λ db,
  match orders (store db) !! id with
  | Some o =>
      let o' := with_status st o in
      (Ok o', with_store (set_orders <[id := o']>) db)
  | None => (Throw record_not_found, db)
  end.

(** ** Payment authorizer ([paymentService.js]) *)

Record PaymentResult := mkPaymentResult {
  success : bool;
  transactionId : option string
}.

(** [processPayment(amount, orderId)]; [now] is the value of [Date.now()]. *)
Definition processPayment (now : Z) (amount orderId : Z) : PaymentResult :=
  let success := true in
  if success
  then mkPaymentResult true (Some ("txn_" +:+ pretty now +:+ "_" +:+ pretty orderId))
  else mkPaymentResult false None.

(** ** Order creation ([orderService.createOrder]) *)

(** One element of the [items] argument. *)
Record OrderLine := mkOrderLine {
  productId : Z;
  quantity : Z
}.

(** The value returned to the caller. *)
Record OrderSummary := mkOrderSummary {
  orderId : Z;
  status : OrderStatus;
  totalAmount : Z
}.

(** The loop [for (const item of items)], with its two accumulators. *)
Fixpoint createOrder_loop (items : list OrderLine)
    (orderItemsData : list OrderItemData) (totalAmount : Z)
  : Tx (list OrderItemData * Z) :=
  match items with
  | [] => mret (orderItemsData, totalAmount)
  | item :: rest =>
      product ← product_findUnique (productId item);
      match product with
      | None => throw (ProductNotFound (productId item))
      | Some product =>
          if bool_decide (product_stock product < quantity item)
          then throw (InsufficientStock (product_name product)
                        (product_stock product) (quantity item))
          else
            let orderItemsData :=
              orderItemsData ++
              [mkOrderItemData (productId item) (quantity item) (product_price product)] in
            let totalAmount := totalAmount + product_price product * quantity item in
            _ ← product_update_decrement (productId item) (quantity item);
            createOrder_loop rest orderItemsData totalAmount
      end
  end.

(** The callback handed to [$transaction]. *)
Definition createOrder_body (authorize : Z → Z → PaymentResult)
    (userId : Z) (items : list OrderLine) : Tx (Z * Order) :=
  user ← user_findUnique userId;
  match user with
  | None => throw UserNotFound
  | Some _ =>
      '(orderItemsData, totalAmount) ← createOrder_loop items [] 0;
      order ← order_create userId Processing totalAmount orderItemsData;
      let paymentResult := authorize totalAmount order.1 in
      if negb (success paymentResult)
      then throw PaymentFailed
      else
        _ ← payment_create order.1 totalAmount Succeeded;
        mret order
  end.

(** [createOrder] with the payment authorizer made explicit. *)
Definition createOrderWith (authorize : Z → Z → PaymentResult)
    (userId : Z) (items : list OrderLine) : Tx OrderSummary :=
  result ← transaction (createOrder_body authorize userId items);
  mret (mkOrderSummary result.1 (order_status result.2) (order_totalAmount result.2)).

Definition createOrder (userId : Z) (items : list OrderLine) : Tx OrderSummary := λ db,
  createOrderWith (processPayment (clock db)) userId items db.

(** ** Order cancellation ([orderService.cancelOrder]) *)

Record CancelResult := mkCancelResult {
  cancel_orderId : Z;
  cancel_status : OrderStatus
}.

(** The loop [for (const item of order.orderItems)]. *)
Fixpoint cancelOrder_loop (orderItems : list OrderItem) : Tx () :=
  match orderItems with
  | [] => mret ()
  | item :: rest =>
      _ ← product_update_increment (item_productId item) (item_quantity item);
      cancelOrder_loop rest
  end.

Definition cancelOrder_body (orderId : Z) : Tx (Z * Order) :=
  order ← order_findUnique_with_items orderId;
  match order with
  | None => throw OrderNotFound
  | Some (order, orderItems) =>
      if decide (order_status order = Cancelled)
      then mret (orderId, order)
      else if decide (order_status order = Shipped ∨ order_status order = Delivered)
      then throw (NotCancelable (order_status order))
      else
        _ ← cancelOrder_loop orderItems;
        updatedOrder ← order_update_status orderId Cancelled;
        mret (orderId, updatedOrder)
  end.

Definition cancelOrder (orderId : Z) : Tx CancelResult :=
  result ← transaction (cancelOrder_body orderId);
  mret (mkCancelResult result.1 (order_status result.2)).

(** ** Order detail assembly ([orderService.getOrderDetails]) *)

Record UserView := mkUserView { view_userId : Z; view_email : string }.

Record ItemView := mkItemView {
  view_productId : Z;
  view_productName : string;
  view_quantity : Z;
  view_price : Z
}.

Record OrderView := mkOrderView {
  view_orderId : Z;
  view_status : OrderStatus;
  view_totalAmount : Z;
  view_createdAt : Z;
  view_user : UserView;
  view_items : list ItemView
}.

(** The result of the query with its [include]d relations: the user's
    [id] and [email], and for every item its product's [id] and [name]. *)
Record OrderRecord := mkOrderRecord {
  rec_order : Order;
  rec_user : option (Z * string);
  rec_orderItems : list (OrderItem * option (Z * string))
}.

(** [prisma.order.findUnique({ where: { id }, include: { user, orderItems } })] *)
Definition order_findUnique_details (id : Z) : Tx (option OrderRecord) := λ db,
  let s := store db in
  match findUnique (orders s) id with
  | Ok order =>
      (Ok ((λ o,
             mkOrderRecord o
               ((λ u, (order_userId o, user_email u)) <$> users s !! order_userId o)
               ((λ it, (it, (λ p, (item_productId it, product_name p))
                              <$> products s !! item_productId it))
                  <$> items_of id (order_items s)))
            <$> order), db)
  | Throw e => (Throw e, db)
  end.

Definition null_property (field : string) : Error :=
  TypeError ("Cannot read properties of null (reading '" +:+ field +:+ "')").

(** The callback of [order.orderItems.map]. *)
Definition item_view (item : OrderItem * option (Z * string)) : Tx ItemView :=
  match item.2 with
  | None => throw (null_property "id")
  | Some (id, name) => mret (mkItemView id name (item_quantity item.1) (item_price item.1))
  end.

Fixpoint map_items (l : list (OrderItem * option (Z * string))) : Tx (list ItemView) :=
  match l with
  | [] => mret []
  | item :: rest =>
      v ← item_view item;
      vs ← map_items rest;
      mret (v :: vs)
  end.

Definition getOrderDetails (orderId : Z) : Tx OrderView :=
  order ← order_findUnique_details orderId;
  match order with
  | None => throw OrderNotFound
  | Some order =>
      match rec_user order with
      | None => throw (null_property "id")
      | Some (uid, email) =>
          items ← map_items (rec_orderItems order);
          mret (mkOrderView orderId (order_status (rec_order order))
                  (order_totalAmount (rec_order order))
                  (order_createdAt (rec_order order))
                  (mkUserView uid email) items)
      end
  end.

(** ** Seed data ([db/seeds/01-seed.sql]) *)

Definition seed_store : Store :=
  mkStore
    (<[1 := mkUser "venkat@example.com" "hashed_password_123"]>
     (<[2 := mkUser "sai@example.com" "hashed_password_456"]> ∅))
    (<[1 := mkProduct "Laptop" 5500099 10]>
     (<[2 := mkProduct "Wireless Mouse" 120000 50]>
     (<[3 := mkProduct "USB-C Cable" 170000 100]>
     (<[4 := mkProduct "Keyboard" 80000 25]>
     (<[5 := mkProduct "iPhone" 10000000 0]> ∅)))))
    ∅ [] [].

Definition seed_db : Db := mkDb seed_store 1 1771158600000.

(** ** Specification vocabulary *)

(** Units of product [pid] requested by a list of lines. *)
Fixpoint ordered_qty (pid : Z) (items : list OrderLine) : Z :=
  match items with
  | [] => 0
  | item :: rest =>
      (if decide (productId item = pid) then quantity item else 0) + ordered_qty pid rest
  end.

(** Units of product [pid] recorded in a list of order-item rows. *)
Fixpoint recorded_qty (pid : Z) (rows : list OrderItem) : Z :=
  match rows with
  | [] => 0
  | row :: rest =>
      (if decide (item_productId row = pid) then item_quantity row else 0) + recorded_qty pid rest
  end.

Definition price_of (P : gmap Z Product) (pid : Z) : Z :=
  from_option product_price 0 (P !! pid).

Definition name_of (P : gmap Z Product) (pid : Z) : string :=
  from_option product_name "" (P !! pid).

(** The line of the view assembled for a row of [order_items]. *)
Definition row_view (P : gmap Z Product) (row : OrderItem) : ItemView :=
  mkItemView (item_productId row) (name_of P (item_productId row))
    (item_quantity row) (item_price row).

(** Sum over the lines of price times quantity, at the prices of [P]. *)
Fixpoint order_total (P : gmap Z Product) (items : list OrderLine) : Z :=
  match items with
  | [] => 0
  | item :: rest => price_of P (productId item) * quantity item + order_total P rest
  end.

(** Sum over order-item rows of recorded price times recorded quantity. *)
Fixpoint rows_total (rows : list OrderItem) : Z :=
  match rows with
  | [] => 0
  | row :: rest => item_price row * item_quantity row + rows_total rest
  end.

Definition line_data (P : gmap Z Product) (item : OrderLine) : OrderItemData :=
  mkOrderItemData (productId item) (quantity item) (price_of P (productId item)).

Definition line_row (P : gmap Z Product) (oid : Z) (item : OrderLine) : OrderItem :=
  mkOrderItem oid (productId item) (quantity item) (price_of P (productId item)).

(** A line passes both checks against the stock of [P] less what the lines
    [before] it have taken. *)
Definition line_ok (P : gmap Z Product) (before : list OrderLine) (item : OrderLine) : Prop :=
  ∃ p, P !! productId item = Some p ∧
       quantity item ≤ product_stock p - ordered_qty (productId item) before.

(** A line fails a check, with the error the check raises. *)
Definition line_fails (P : gmap Z Product) (before : list OrderLine) (item : OrderLine)
    (e : Error) : Prop :=
  (P !! productId item = None ∧ int4 (productId item) ∧
   e = ProductNotFound (productId item)) ∨
  (P !! productId item = None ∧ ¬ int4 (productId item) ∧ e = value_out_of_range) ∨
  (∃ p, P !! productId item = Some p ∧
        product_stock p - ordered_qty (productId item) before < quantity item ∧
        e = InsufficientStock (product_name p)
              (product_stock p - ordered_qty (productId item) before) (quantity item)).

(** The first [k] lines pass, each against what the lines before it left. *)
Definition prefix_ok (P : gmap Z Product) (items : list OrderLine) (k : nat) : Prop :=
  ∀ i item, (i < k)%nat → items !! i = Some item → line_ok P (take i items) item.

Definition lines_ok (P : gmap Z Product) (items : list OrderLine) : Prop :=
  ∀ i item, items !! i = Some item → line_ok P (take i items) item.

(** Line [k] is the first to fail, with error [e]. *)
Definition first_failure (P : gmap Z Product) (items : list OrderLine) (k : nat)
    (e : Error) : Prop :=
  ∃ item, items !! k = Some item ∧ prefix_ok P items k ∧ line_fails P (take k items) item e.

(** Everything but the [products] relation agrees. *)
Definition same_but_products (db db' : Db) : Prop :=
  users (store db') = users (store db) ∧
  orders (store db') = orders (store db) ∧
  order_items (store db') = order_items (store db) ∧
  payments (store db') = payments (store db) ∧
  orders_id_seq db' = orders_id_seq db ∧
  clock db' = clock db.


(** Every row of order [oid] references a product: the foreign key of
    [order_items.product_id], for the rows of that order. *)
Definition items_reference_products (s : Store) (oid : Z) : Prop :=
  ∀ row, row ∈ items_of oid (order_items s) → is_Some (products s !! item_productId row).

(** ** Outcomes of order creation *)

(** The [products] relation once every line has been taken from it. *)
Definition take_stock (items : list OrderLine) (P : gmap Z Product) : gmap Z Product :=
  map_imap (λ pid p, Some (mkProduct (product_name p) (product_price p)
                             (product_stock p - ordered_qty pid items))) P.

(** The state a rolled-back creation leaves when it had drawn an order key. *)
Definition key_drawn (db : Db) : Db :=
  mkDb (store db) (orders_id_seq db + 1) (clock db).

(** The state a committed creation leaves. *)
Definition created (userId : Z) (items : list OrderLine) (db : Db) : Db :=
  let s := store db in
  let oid := orders_id_seq db in
  let total := order_total (products s) items in
  mkDb (mkStore (users s)
          (take_stock items (products s))
          (<[oid := mkOrder userId Processing total (clock db)]> (orders s))
          (order_items s ++ (line_row (products s) oid <$> items))
          (payments s ++ [mkPayment oid total Succeeded]))
       (oid + 1) (clock db).

Inductive creation_case (authorize : Z → Z → PaymentResult) (userId : Z)
    (items : list OrderLine) (db : Db) : outcome OrderSummary * Db → Prop :=
| case_user_out_of_range :
    users (store db) !! userId = None →
    ¬ int4 userId →
    creation_case authorize userId items db (Throw value_out_of_range, db)
| case_no_user :
    users (store db) !! userId = None →
    int4 userId →
    creation_case authorize userId items db (Throw UserNotFound, db)
| case_line_fails k e :
    is_Some (users (store db) !! userId) →
    first_failure (products (store db)) items k e →
    creation_case authorize userId items db (Throw e, db)
| case_key_taken :
    is_Some (users (store db) !! userId) →
    lines_ok (products (store db)) items →
    is_Some (orders (store db) !! orders_id_seq db) →
    creation_case authorize userId items db (Throw unique_constraint_failed, key_drawn db)
| case_payment_declined :
    is_Some (users (store db) !! userId) →
    lines_ok (products (store db)) items →
    orders (store db) !! orders_id_seq db = None →
    success (authorize (order_total (products (store db)) items) (orders_id_seq db)) = false →
    creation_case authorize userId items db (Throw PaymentFailed, key_drawn db)
| case_payment_exists :
    is_Some (users (store db) !! userId) →
    lines_ok (products (store db)) items →
    orders (store db) !! orders_id_seq db = None →
    success (authorize (order_total (products (store db)) items) (orders_id_seq db)) = true →
    Exists (λ p, payment_orderId p = orders_id_seq db) (payments (store db)) →
    creation_case authorize userId items db (Throw unique_constraint_failed, key_drawn db)
| case_created :
    is_Some (users (store db) !! userId) →
    lines_ok (products (store db)) items →
    orders (store db) !! orders_id_seq db = None →
    success (authorize (order_total (products (store db)) items) (orders_id_seq db)) = true →
    ¬ Exists (λ p, payment_orderId p = orders_id_seq db) (payments (store db)) →
    creation_case authorize userId items db
      (Ok (mkOrderSummary (orders_id_seq db) Processing
             (order_total (products (store db)) items)),
       created userId items db).


(** ** Outcomes of order cancellation *)

(** The [products] relation once every row's quantity has been put back. *)
Definition restock (rows : list OrderItem) (P : gmap Z Product) : gmap Z Product :=
  map_imap (λ pid p, Some (mkProduct (product_name p) (product_price p)
                             (product_stock p + recorded_qty pid rows))) P.

(** The state a committed cancellation of order [o] leaves. *)
Definition cancelled (oid : Z) (o : Order) (db : Db) : Db :=
  let s := store db in
  mkDb (mkStore (users s)
          (restock (filter (λ row, item_orderId row = oid) (order_items s)) (products s))
          (<[oid := mkOrder (order_userId o) Cancelled (order_totalAmount o)
                      (order_createdAt o)]> (orders s))
          (order_items s)
          (payments s))
       (orders_id_seq db) (clock db).

(** The statuses from which a cancellation goes on to restock: every text
    but the three the code tests for. *)
Definition cancellable (st : OrderStatus) : Prop :=
  st ≠ Cancelled ∧ st ≠ Shipped ∧ st ≠ Delivered.

Inductive cancel_case (oid : Z) (db : Db) : outcome CancelResult * Db → Prop :=
| cancel_out_of_range :
    orders (store db) !! oid = None →
    ¬ int4 oid →
    cancel_case oid db (Throw value_out_of_range, db)
| cancel_no_order :
    orders (store db) !! oid = None →
    int4 oid →
    cancel_case oid db (Throw OrderNotFound, db)
| cancel_already o :
    orders (store db) !! oid = Some o →
    order_status o = Cancelled →
    cancel_case oid db (Ok (mkCancelResult oid Cancelled), db)
| cancel_refused o :
    orders (store db) !! oid = Some o →
    order_status o = Shipped ∨ order_status o = Delivered →
    cancel_case oid db (Throw (NotCancelable (order_status o)), db)
| cancel_dangling o row :
    orders (store db) !! oid = Some o →
    cancellable (order_status o) →
    row ∈ items_of oid (order_items (store db)) →
    products (store db) !! item_productId row = None →
    cancel_case oid db (Throw record_not_found, db)
| cancel_done o :
    orders (store db) !! oid = Some o →
    cancellable (order_status o) →
    items_reference_products (store db) oid →
    cancel_case oid db (Ok (mkCancelResult oid Cancelled), cancelled oid o db).

(** ** Sample states *)

(** The seed database after user 1 has ordered two laptops and three mice. *)
Definition ordered_db : Db := created 1 [mkOrderLine 1 2; mkOrderLine 2 3] seed_db.


(** ** The create-order handler ([orderController.createOrder]) *)

(** Values of a parsed JSON body, with [undefined] for what is absent.
    Numbers are integers. *)
#[warnings="-register-all"]
Inductive JsValue :=
| JsUndefined
| JsNull
| JsBool (b : bool)
| JsNumber (n : Z)
| JsString (s : string)
| JsArray (l : list JsValue)
| JsObject (fields : list (string * JsValue)).

(** The value of a key of an object literal; the last binding wins. *)
Fixpoint field (fields : list (string * JsValue)) (name : string) : JsValue :=
  match fields with
  | [] => JsUndefined
  | (k, v) :: rest =>
      match field rest name with
      | JsUndefined => if String.eqb k name then v else JsUndefined
      | later => later
      end
  end.

(** [v.name], for the names the handler reads.  Reading a property of
    [null] or [undefined] throws; primitives and arrays have no property
    of these names. *)
Definition property (v : JsValue) (name : string) : Tx JsValue :=
  match v with
  | JsUndefined =>
      throw (TypeError ("Cannot read properties of undefined (reading '" +:+ name +:+ "')"))
  | JsNull => throw (null_property name)
  | JsObject fields => mret (field fields name)
  | _ => mret JsUndefined
  end.

(** [!v] is [negb (truthy v)]. *)
Definition truthy (v : JsValue) : bool :=
  match v with
  | JsUndefined | JsNull => false
  | JsBool b => b
  | JsNumber n => negb (n =? 0)
  | JsString s => negb (String.eqb s "")
  | JsArray _ | JsObject _ => true
  end.

(** [Array.isArray(v)] *)
Definition isArray (v : JsValue) : bool :=
  match v with JsArray _ => true | _ => false end.

(** The elements of an array. *)
Definition elements (v : JsValue) : list JsValue :=
  match v with JsArray l => l | _ => [] end.

(** [haystack.includes(needle)] *)
Definition includes (haystack needle : string) : bool :=
  match String.index 0 needle haystack with Some _ => true | None => false end.

Inductive ResponseBody :=
| ErrorBody (error : string)
| OrderBody (order : OrderSummary).

(** [res.status(code).json(body)] *)
Record Response := mkResponse {
  res_status : Z;
  res_body : ResponseBody
}.

Section Controller.

(** The conversion of a string to a number ([None] for [NaN]) and the
    conversion of an array or object to a primitive string: the two
    built-ins behind [<=] on operands that are not numbers. *)
Variable StringToNumber : string → option Z.
Variable ToPrimitive : JsValue → string.

(** The engine, handed the raw [userId] and [items] of the body. *)
Variable orderService_createOrder : JsValue → JsValue → Tx OrderSummary.

Definition ToNumber (v : JsValue) : option Z :=
  match v with
  | JsUndefined => None
  | JsNull => Some 0
  | JsBool b => Some (if b then 1 else 0)
  | JsNumber n => Some n
  | JsString s => StringToNumber s
  | JsArray _ | JsObject _ => StringToNumber (ToPrimitive v)
  end.

(** [v <= 0] *)
Definition le_zero (v : JsValue) : bool :=
  match ToNumber v with
  | Some n => n <=? 0
  | None => false
  end.

(** [!item.productId || !item.quantity || item.quantity <= 0] *)
Definition item_rejected (item : JsValue) : Tx bool :=
  productId ← property item "productId";
  if negb (truthy productId) then mret true
  else
    quantity ← property item "quantity";
    mret (negb (truthy quantity) || le_zero quantity).

(** The loop [for (const item of items)] of the handler: the response
    sent from inside the loop, if any. *)
Fixpoint validate_items (items : list JsValue) : Tx (option Response) :=
  match items with
  | [] => mret None
  | item :: rest =>
      rejected ← item_rejected item;
      if rejected : bool
      then mret (Some (mkResponse 400
                         (ErrorBody "Each item must have productId and quantity > 0")))
      else validate_items rest
  end.

(** The [try] block. *)
Definition createOrder_try (body : JsValue) : Tx Response :=
  userId ← property body "userId";
  items ← property body "items";
  if negb (truthy userId) || negb (truthy items) || negb (isArray items)
     || bool_decide (length (elements items) = 0%nat)
  then mret (mkResponse 400
               (ErrorBody "Invalid request. userId and items array are required."))
  else
    sent ← validate_items (elements items);
    match sent with
    | Some response => mret response
    | None =>
        order ← orderService_createOrder userId items;
        mret (mkResponse 201 (OrderBody order))
    end.

(** The handler: the [try] block and its [catch]. *)
Definition createOrder_handler (body : JsValue) (db : Db) : Response * Db :=
  match createOrder_try body db with
  | (Ok response, db') => (response, db')
  | (Throw error, db') =>
      if includes (message error) "not found" || includes (message error) "Insufficient stock"
      then (mkResponse 400 (ErrorBody (message error)), db')
      else (mkResponse 500 (ErrorBody "Internal server error"), db')
  end.

End Controller.

(** A body whose first item is [null] and whose second item has quantity 0. *)
Definition null_item_body : JsValue :=
  JsObject [("userId", JsNumber 1);
            ("items", JsArray [JsNull;
                               JsObject [("productId", JsNumber 1);
                                         ("quantity", JsNumber 0)]])].

(** What the handler reads as [item.name]: [undefined] unless [item] is an
    object with the key. *)
Definition item_field (item : JsValue) (name : string) : JsValue :=
  match item with
  | JsObject fields => field fields name
  | _ => JsUndefined
  end.

(** An item whose [productId] is missing or falsy, or whose [quantity] is
    missing, zero or negative. *)
Definition bad_item (item : JsValue) : Prop :=
  truthy (item_field item "productId") = false ∨
  item_field item "quantity" = JsUndefined ∨
  ∃ n, item_field item "quantity" = JsNumber n ∧ n ≤ 0.

(** A body without [userId], without [items], with [items] that is not an
    array or is empty, or with a bad item. *)
Definition bad_body (body : JsValue) : Prop :=
  item_field body "userId" = JsUndefined ∨
  item_field body "items" = JsUndefined ∨
  isArray (item_field body "items") = false ∨
  item_field body "items" = JsArray [] ∨
  ∃ item, item ∈ elements (item_field body "items") ∧ bad_item item.

(** A value whose properties can be read. *)
Definition readable (v : JsValue) : Prop := v ≠ JsNull ∧ v ≠ JsUndefined.

Definition invalid_request : Response :=
  mkResponse 400 (ErrorBody "Invalid request. userId and items array are required.").

Definition invalid_item : Response :=
  mkResponse 400 (ErrorBody "Each item must have productId and quantity > 0").

Definition internal_server_error : Response :=
  mkResponse 500 (ErrorBody "Internal server error").

(** ** Order creation, statement by statement *)

(** The callback handed to [$transaction] as the sequence of statements it
    sends to the store, each with the rest of the callback waiting for the
    statement's result. *)
Inductive Script :=
| Return (result : Z * Order)
| Raise (e : Error)
| FindUser (id : Z) (next : option User → Script)
| FindProduct (id : Z) (next : option Product → Script)
| DecrementStock (id n : Z) (next : Product → Script)
| CreateOrder (userId : Z) (st : OrderStatus) (total : Z)
    (data : list OrderItemData) (next : Z * Order → Script)
| CreatePayment (orderId amount : Z) (st : PaymentStatus) (next : () → Script).

Fixpoint createOrder_loop_script (items : list OrderLine)
    (orderItemsData : list OrderItemData) (totalAmount : Z)
    (next : list OrderItemData * Z → Script) : Script :=
  match items with
  | [] => next (orderItemsData, totalAmount)
  | item :: rest =>
      FindProduct (productId item) (λ product,
        match product with
        | None => Raise (ProductNotFound (productId item))
        | Some product =>
            if bool_decide (product_stock product < quantity item)
            then Raise (InsufficientStock (product_name product)
                          (product_stock product) (quantity item))
            else
              let orderItemsData :=
                orderItemsData ++
                [mkOrderItemData (productId item) (quantity item) (product_price product)] in
              let totalAmount := totalAmount + product_price product * quantity item in
              DecrementStock (productId item) (quantity item) (λ _,
                createOrder_loop_script rest orderItemsData totalAmount next)
        end)
  end.

Definition createOrder_script (authorize : Z → Z → PaymentResult)
    (userId : Z) (items : list OrderLine) : Script :=
  FindUser userId (λ user,
    match user with
    | None => Raise UserNotFound
    | Some _ =>
        createOrder_loop_script items [] 0 (λ '(orderItemsData, totalAmount),
          CreateOrder userId Processing totalAmount orderItemsData (λ order,
            let paymentResult := authorize totalAmount order.1 in
            if negb (success paymentResult)
            then Raise PaymentFailed
            else CreatePayment order.1 totalAmount Succeeded (λ _, Return order)))
    end).

(** A script run by one transaction on its own. *)
Fixpoint run_script (s : Script) : Tx (Z * Order) :=
  match s with
  | Return result => mret result
  | Raise e => throw e
  | FindUser id next => user_findUnique id ≫= (λ r, run_script (next r))
  | FindProduct id next => product_findUnique id ≫= (λ r, run_script (next r))
  | DecrementStock id n next => product_update_decrement id n ≫= (λ r, run_script (next r))
  | CreateOrder userId st total data next =>
      order_create userId st total data ≫= (λ r, run_script (next r))
  | CreatePayment orderId amount st next =>
      payment_create orderId amount st ≫= (λ r, run_script (next r))
  end.

(** ** Transactions side by side *)

(** Modelled from the spec: the Ledger Store serving several transactions
    at once (section 5), which is PostgreSQL behind [utils/db.js] and not
    part of the sources at hand.  Isolation is READ COMMITTED: a statement
    reads what is committed, overlaid with the transaction's own writes.
    An update takes the lock of the row it writes and keeps it until its
    transaction ends; an update that finds the row locked by another
    transaction waits, and then applies to the row as that transaction
    left it. *)
Record Session := mkSession {
  script : Script;
  written_products : gmap Z Product;
  inserted_orders : gmap Z Order;
  inserted_items : list OrderItem;
  inserted_payments : list Payment
}.

Inductive Client :=
| Running (s : Session)
| Finished (r : outcome (Z * Order)).

Record Server := mkServer {
  committed : Db;
  clients : list Client
}.

Definition open_session (s : Script) : Client :=
  Running (mkSession s ∅ ∅ [] []).

(** What the statements of a session see. *)
Definition view (db : Db) (s : Session) : Db :=
  mkDb (mkStore (users (store db))
          (written_products s ∪ products (store db))
          (inserted_orders s ∪ orders (store db))
          (order_items (store db) ++ inserted_items s)
          (payments (store db) ++ inserted_payments s))
       (orders_id_seq db) (clock db).

Definition holds_row (id : Z) (c : Client) : bool :=
  match c with
  | Running s => bool_decide (is_Some (written_products s !! id))
  | Finished _ => false
  end.

(** The product row is locked by a client other than the [i]-th. *)
Definition locked_by_other (i : nat) (id : Z) (cs : list Client) : bool :=
  existsb (holds_row id) (delete i cs).

Definition check_violation : Error :=
  StoreError "new row for relation products violates check constraint".

(** One statement of a session; [None] when the statement has to wait.
    [stock_check] tells whether the store enforces [stock >= 0]. *)
Definition step_session (stock_check : bool) (locked : Z → bool) (db : Db) (s : Session)
  : option (Db * Client) :=
  let continue_with db script :=
    Some (db, Running (mkSession script (written_products s) (inserted_orders s)
                         (inserted_items s) (inserted_payments s))) in
  match script s with
  | Return result => Some (view db s, Finished (Ok result))
  | Raise e => Some (db, Finished (Throw e))
  | FindUser id next =>
      match findUnique (users (store db)) id with
      | Ok user => continue_with db (next user)
      | Throw e => continue_with db (Raise e)
      end
  | FindProduct id next =>
      match findUnique (products (store (view db s))) id with
      | Ok product => continue_with db (next product)
      | Throw e => continue_with db (Raise e)
      end
  | DecrementStock id n next =>
      if locked id then None
      else
        match products (store (view db s)) !! id with
        | None => continue_with db (Raise record_not_found)
        | Some p =>
            let p' := add_stock (- n) p in
            if stock_check && (product_stock p' <? 0)
            then continue_with db (Raise check_violation)
            else Some (db, Running (mkSession (next p') (<[id := p']> (written_products s))
                                      (inserted_orders s) (inserted_items s)
                                      (inserted_payments s)))
        end
  | CreateOrder userId st total data next =>
      let id := orders_id_seq db in
      let db1 := mkDb (store db) (id + 1) (clock db) in
      match orders (store (view db s)) !! id with
      | Some _ => continue_with db1 (Raise unique_constraint_failed)
      | None =>
          let o := mkOrder userId st total (clock db) in
          Some (db1, Running (mkSession (next (id, o)) (written_products s)
                                (<[id := o]> (inserted_orders s))
                                (inserted_items s ++ (item_row id <$> data))
                                (inserted_payments s)))
      end
  | CreatePayment orderId amount st next =>
      if bool_decide (Exists (λ p, payment_orderId p = orderId)
                        (payments (store (view db s))))
      then continue_with db (Raise unique_constraint_failed)
      else Some (db, Running (mkSession (next ()) (written_products s) (inserted_orders s)
                                (inserted_items s)
                                (inserted_payments s ++ [mkPayment orderId amount st])))
  end.

(** The scheduler lets the [i]-th client send its next statement; a client
    that has finished or has to wait stays where it is. *)
Definition advance (stock_check : bool) (w : Server) (i : nat) : Server :=
  match clients w !! i with
  | Some (Running s) =>
      match step_session stock_check (λ id, locked_by_other i id (clients w))
              (committed w) s with
      | Some (db, c) => mkServer db (<[i := c]> (clients w))
      | None => w
      end
  | _ => w
  end.

Definition run_schedule (stock_check : bool) (schedule : list nat) (w : Server) : Server :=
  foldl (advance stock_check) w schedule.

(** One keyboard left, and two users who each order one. *)
Definition last_unit_db : Db :=
  mkDb (mkStore (users seed_store) (<[4 := mkProduct "Keyboard" 80000 1]> ∅) ∅ [] [])
       1 1771158600000.

Definition two_buyers : Server :=
  mkServer last_unit_db
    [open_session (createOrder_script (processPayment 1771158600000) 1 [mkOrderLine 4 1]);
     open_session (createOrder_script (processPayment 1771158600000) 2 [mkOrderLine 4 1])].

(** Both buyers read the stock before either writes it. *)
Definition racing_schedule : list nat :=
  [0; 1; 0; 1; 0; 1; 0; 0; 0; 1; 1; 1; 1]%nat.

Definition one_after_the_other : list nat :=
  [0; 0; 0; 0; 0; 0; 1; 1; 1; 1; 1; 1]%nat.

(** The state a lone transaction leaves: its working state when it
    returns, the state it started from (with the sequence as drawn) when
    it throws. *)
Definition settled {A} (db : Db) (end_of_body : outcome A * Db) : Db :=
  match end_of_body.1 with
  | Ok _ => end_of_body.2
  | Throw _ => mkDb (store db) (orders_id_seq end_of_body.2) (clock end_of_body.2)
  end.

(** Exactly one of two clients has its order, the other was refused for
    lack of stock, and product [pid] is sold out. *)
Definition one_sale (pid : Z) (w : Server) : Prop :=
  (∃ r name available requested,
     clients w = [Finished (Ok r);
                  Finished (Throw (InsufficientStock name available requested))] ∨
     clients w = [Finished (Throw (InsufficientStock name available requested));
                  Finished (Ok r)]) ∧
  product_stock <$> products (store (committed w)) !! pid = Some 0.

(** ** Constraints of the schema and the total of an order *)

(** The foreign keys and the unique index of [db/seeds/01-seed.sql], the
    order keys lying below the sequence that draws them, and the total of
    every order being the sum over its rows of price times quantity. *)
Record integrity (db : Db) : Prop := mkIntegrity {
  items_have_order :
    ∀ row, row ∈ order_items (store db) →
           is_Some (orders (store db) !! item_orderId row);
  items_have_product :
    ∀ row, row ∈ order_items (store db) →
           is_Some (products (store db) !! item_productId row);
  orders_have_user :
    ∀ oid o, orders (store db) !! oid = Some o →
             is_Some (users (store db) !! order_userId o);
  payments_have_order :
    ∀ pay, pay ∈ payments (store db) →
           is_Some (orders (store db) !! payment_orderId pay);
  payments_unique : NoDup (payment_orderId <$> payments (store db));
  keys_drawn :
    ∀ oid, is_Some (orders (store db) !! oid) → oid < orders_id_seq db;
  totals_add_up :
    ∀ oid o, orders (store db) !! oid = Some o →
             rows_total (items_of oid (order_items (store db))) = order_totalAmount o
}.

(** No product is oversold. *)
Definition stock_nonneg (db : Db) : Prop :=
  ∀ pid p, products (store db) !! pid = Some p → 0 ≤ product_stock p.

(** The line of the view for a line of the request, at the names and
    prices of [P]. *)
Definition line_view (P : gmap Z Product) (item : OrderLine) : ItemView :=
  mkItemView (productId item) (name_of P (productId item)) (quantity item)
    (price_of P (productId item)).

(** Sum over the lines of a view of price times quantity. *)
Fixpoint view_total (l : list ItemView) : Z :=
  match l with
  | [] => 0
  | v :: rest => view_price v * view_quantity v + view_total rest
  end.

(** ** The other handlers ([orderController.getOrder],
       [orderController.cancelOrder], [productController.getAllProducts]) *)

Inductive ReplyBody (A : Type) :=
| JsonBody (a : A)
| JsonError (error : string).
Arguments JsonBody {A} a.
Arguments JsonError {A} error.

(** [res.status(code).json(body)], for a handler whose data is an [A]. *)
Record Reply (A : Type) := mkReply {
  reply_status : Z;
  reply_body : ReplyBody A
}.
Arguments mkReply {A} reply_status reply_body.
Arguments reply_status {A} r.
Arguments reply_body {A} r.

Section OrderRoutes.

(** [parseInt] on the route parameter: [None] for [NaN], otherwise the
    integer read. *)
Variable parseInt : string → option Z.

(** [getOrder]; [param] is [req.params.orderId]. *)
Definition getOrder_handler (param : string) (db : Db) : Reply OrderView * Db :=
  match parseInt param with
  | None => (mkReply 400 (JsonError "Invalid order ID"), db)
  | Some orderId =>
      match getOrderDetails orderId db with
      | (Ok order, db') => (mkReply 200 (JsonBody order), db')
      | (Throw error, db') =>
          if String.eqb (message error) "Order not found"
          then (mkReply 404 (JsonError (message error)), db')
          else (mkReply 500 (JsonError "Internal server error"), db')
      end
  end.

(** [cancelOrder] of the controller; [param] is [req.params.orderId]. *)
Definition cancelOrder_handler (param : string) (db : Db) : Reply CancelResult * Db :=
  match parseInt param with
  | None => (mkReply 400 (JsonError "Invalid order ID"), db)
  | Some orderId =>
      match cancelOrder orderId db with
      | (Ok order, db') => (mkReply 200 (JsonBody order), db')
      | (Throw error, db') =>
          if String.eqb (message error) "Order not found"
          then (mkReply 404 (JsonError (message error)), db')
          else if includes (message error) "Cannot cancel"
          then (mkReply 400 (JsonError (message error)), db')
          else (mkReply 500 (JsonError "Internal server error"), db')
      end
  end.

End OrderRoutes.

(** One element of the product listing. *)
Record ProductView := mkProductView {
  listed_id : Z;
  listed_name : string;
  listed_price : Z;
  listed_stock : Z
}.

(** [prisma.product.findMany({ select: { id, name, price, stock } })]; the
    rows come in no particular order. *)
Definition product_findMany : Tx (list (Z * Product)) := λ db,
  (Ok (map_to_list (products (store db))), db).

(** The callback of [products.map]. *)
Definition format_product (row : Z * Product) : ProductView :=
  mkProductView row.1 (product_name row.2) (product_price row.2) (product_stock row.2).

(** [getAllProducts] *)
Definition getAllProducts (db : Db) : Reply (list ProductView) * Db :=
  match product_findMany db with
  | (Ok products, db') => (mkReply 200 (JsonBody (format_product <$> products)), db')
  | (Throw error, db') => (mkReply 500 (JsonError "Internal server error"), db')
  end.

(** ** Bodies the create-order handler lets through *)

(** An item that passes [!item.productId || !item.quantity ||
    item.quantity <= 0]. *)
Definition item_accepted (StringToNumber : string → option Z)
    (ToPrimitive : JsValue → string) (item : JsValue) : Prop :=
  readable item ∧
  truthy (item_field item "productId") = true ∧
  truthy (item_field item "quantity") = true ∧
  le_zero StringToNumber ToPrimitive (item_field item "quantity") = false.

(** A body that passes both validations of the handler. *)
Definition body_accepted (StringToNumber : string → option Z)
    (ToPrimitive : JsValue → string) (body : JsValue) : Prop :=
  readable body ∧
  truthy (item_field body "userId") = true ∧
  isArray (item_field body "items") = true ∧
  elements (item_field body "items") ≠ [] ∧
  ∀ item, item ∈ elements (item_field body "items") →
          item_accepted StringToNumber ToPrimitive item.

(** A body with one well-formed item. *)
Definition one_item_body : JsValue :=
  JsObject [("userId", JsNumber 1);
            ("items", JsArray [JsObject [("productId", JsNumber 1);
                                         ("quantity", JsNumber 2)]])].

(** ** Ranges of the value columns *)

(** The values of a [DECIMAL(10,2)] column, in cents. *)
Definition decimal_10_2 (cents : Z) : Prop := -10000000000 < cents < 10000000000.

#[global] Instance decimal_10_2_dec n : Decision (decimal_10_2 n).
Proof. unfold decimal_10_2. apply _. Defined.

(** No decrement that follows a passed stock check leaves the range of
    [products.stock]: every stored stock fits the column and no quantity
    asked for is negative. *)
Definition decrements_fit (db : Db) (items : list OrderLine) : Prop :=
  (∀ pid p, products (store db) !! pid = Some p → int4 (product_stock p)) ∧
  (∀ item, item ∈ items → 0 ≤ quantity item).

(** What an order creation writes fits the columns it is written to: the
    decremented stocks, the prices copied to the order's rows, the total
    written to [orders.total_amount] and [payments.amount], and the key
    drawn for [orders.id]. *)
Definition values_fit (db : Db) (items : list OrderLine) : Prop :=
  decrements_fit db items ∧
  (∀ pid p, products (store db) !! pid = Some p → decimal_10_2 (product_price p)) ∧
  decimal_10_2 (order_total (products (store db)) items) ∧
  int4 (orders_id_seq db).

(** What a cancellation of order [oid] writes fits [products.stock]: the
    rows of the order record quantities of the column's non-negative
    range, and every stock fits the column before and after the
    quantities recorded for it are put back. *)
Definition restock_fits (db : Db) (oid : Z) : Prop :=
  (∀ row, row ∈ order_items (store db) → item_orderId row = oid →
          0 ≤ item_quantity row ≤ 2147483647) ∧
  (∀ pid p, products (store db) !! pid = Some p →
     int4 (product_stock p) ∧
     int4 (product_stock p
           + recorded_qty pid
               (filter (λ row, item_orderId row = oid) (order_items (store db))))).

(** ** A database with two orders *)

(** User 1 has ordered two laptops and three mice, user 2 one laptop and
    one cable; the rows of the two orders lie between one another. *)
Definition two_orders_db : Db :=
  mkDb (mkStore (users seed_store)
          (<[1 := mkProduct "Laptop" 5500099 7]>
           (<[2 := mkProduct "Wireless Mouse" 120000 47]>
           (<[3 := mkProduct "USB-C Cable" 170000 99]> ∅)))
          (<[1 := mkOrder 1 Processing 11360198 1771158600000]>
           (<[2 := mkOrder 2 Pending 5670099 1771158700000]> ∅))
          [mkOrderItem 1 1 2 5500099; mkOrderItem 2 1 1 5500099;
           mkOrderItem 1 2 3 120000; mkOrderItem 2 3 1 170000]
          [mkPayment 1 11360198 Succeeded])
       3 1771158800000.

(** ** Reasoning about the monad *)

Lemma bind_run {A B} (m : Tx A) (f : A → Tx B) (db : Db) :
  (m ≫= f) db =
  match m db with
  | (Ok a, db') => f a db'
  | (Throw e, db') => (Throw e, db')
  end.
Proof. reflexivity. Qed.

Lemma ret_run {A} (a : A) (db : Db) : (mret a : Tx A) db = (Ok a, db).
Proof. reflexivity. Qed.

Lemma throw_run {A} (e : Error) (db : Db) : (throw e : Tx A) db = (Throw e, db).
Proof. reflexivity. Qed.

Lemma same_but_products_refl db : same_but_products db db.
Proof. by repeat split. Qed.

Lemma same_but_products_trans db1 db2 db3 :
  same_but_products db1 db2 → same_but_products db2 db3 → same_but_products db1 db3.
Proof. unfold same_but_products. intros (?&?&?&?&?&?) (?&?&?&?&?&?). repeat split; congruence. Qed.

Lemma same_but_products_set f db : same_but_products db (with_store (set_products f) db).
Proof. by repeat split. Qed.

(** ** Arithmetic of the specification vocabulary *)

Lemma ordered_qty_app pid l1 l2 :
  ordered_qty pid (l1 ++ l2) = ordered_qty pid l1 + ordered_qty pid l2.
Proof. induction l1 as [|x l1 IH]; simpl; [lia | rewrite IH; lia]. Qed.

Lemma recorded_qty_app pid l1 l2 :
  recorded_qty pid (l1 ++ l2) = recorded_qty pid l1 + recorded_qty pid l2.
Proof. induction l1 as [|x l1 IH]; simpl; [lia | rewrite IH; lia]. Qed.

Lemma add_stock_add a b p : add_stock b (add_stock a p) = add_stock (a + b) p.
Proof. destruct p; unfold add_stock; simpl; f_equal; lia. Qed.

Lemma add_stock_0 p : add_stock 0 p = p.
Proof. destruct p; unfold add_stock; simpl; f_equal; lia. Qed.

Lemma rows_total_lines P oid (items : list OrderLine) :
  rows_total (line_row P oid <$> items) = order_total P items.
Proof.
  induction items as [|x l IH]; [done |].
  rewrite fmap_cons. cbn [rows_total order_total]. by rewrite IH.
Qed.

Lemma item_row_line_data P oid (items : list OrderLine) :
  item_row oid <$> (line_data P <$> items) = line_row P oid <$> items.
Proof. rewrite <- list_fmap_compose. done. Qed.

Lemma line_ok_not_fails P before item e : line_ok P before item → line_fails P before item e → False.
Proof.
  intros (p & Hp & Hq) [[Hn _] | [[Hn _] | (p' & Hp' & Hlt & _)]].
  - congruence.
  - congruence.
  - assert (p' = p) by congruence. subst. lia.
Qed.

Lemma line_fails_inj P before item e1 e2 :
  line_fails P before item e1 → line_fails P before item e2 → e1 = e2.
Proof.
  intros [(H1 & Hr1 & ->) | [(H1 & Hr1 & ->) | (p1 & H1 & _ & ->)]]
         [(H2 & Hr2 & ->) | [(H2 & Hr2 & ->) | (p2 & H2 & _ & ->)]];
    done || congruence.
Qed.

Lemma first_failure_unique P items k1 e1 k2 e2 :
  first_failure P items k1 e1 → first_failure P items k2 e2 → k1 = k2 ∧ e1 = e2.
Proof.
  intros (it1 & Hl1 & Hp1 & Hf1) (it2 & Hl2 & Hp2 & Hf2).
  destruct (lt_eq_lt_dec k1 k2) as [[Hlt | ->] | Hlt].
  - exfalso. eapply line_ok_not_fails; [apply (Hp2 k1 it1 Hlt Hl1) | apply Hf1].
  - assert (it1 = it2) by congruence. subst. split; [done |]. eapply line_fails_inj; eauto.
  - exfalso. eapply line_ok_not_fails; [apply (Hp1 k2 it2 Hlt Hl2) | apply Hf2].
Qed.

Lemma lines_ok_no_failure P items k e : lines_ok P items → first_failure P items k e → False.
Proof.
  intros Hok (it & Hl & _ & Hf). eapply line_ok_not_fails; [apply (Hok k it Hl) | apply Hf].
Qed.

(** ** The reservation loop *)

(** The loop run from a state in which the lines [pre] have already been
    taken from the products [P0]. *)
Lemma createOrder_loop_spec items : ∀ pre acc total db P0,
  (∀ pid, products (store db) !! pid = add_stock (- ordered_qty pid pre) <$> P0 !! pid) →
  same_but_products db (createOrder_loop items acc total db).2 ∧
  match (createOrder_loop items acc total db).1 with
  | Ok (d, t) =>
      (∀ i item, items !! i = Some item → line_ok P0 (pre ++ take i items) item) ∧
      d = acc ++ (line_data P0 <$> items) ∧
      t = total + order_total P0 items ∧
      (∀ pid, products (store (createOrder_loop items acc total db).2) !! pid
              = add_stock (- ordered_qty pid (pre ++ items)) <$> P0 !! pid)
  | Throw e =>
      ∃ k item, items !! k = Some item ∧
        (∀ i item', (i < k)%nat → items !! i = Some item' →
                    line_ok P0 (pre ++ take i items) item') ∧
        line_fails P0 (pre ++ take k items) item e
  end.
Proof.
  induction items as [|item rest IH]; intros pre acc total db P0 Hinv.
  - simpl. split; [apply same_but_products_refl |].
    repeat split.
    + intros i it Hl. by rewrite lookup_nil in Hl.
    + by rewrite app_nil_r.
    + lia.
    + by rewrite app_nil_r.
  - simpl createOrder_loop. rewrite bind_run. unfold product_findUnique, findUnique.
    pose proof (Hinv (productId item)) as Hlook.
    destruct (P0 !! productId item) as [p|] eqn:HP0; simpl in Hlook; rewrite Hlook.
    2:{ destruct (decide (int4 (productId item))) as [Hr | Hr].
        - rewrite throw_run. simpl. split; [apply same_but_products_refl |].
          exists 0%nat, item. split; [done |]. split; [intros; lia |].
          by left.
        - simpl. split; [apply same_but_products_refl |].
          exists 0%nat, item. split; [done |]. split; [intros; lia |].
          right. by left. }
    cbn beta iota. cbn [add_stock product_stock product_name product_price].
    case_bool_decide as Hlt.
    { rewrite throw_run. simpl. split; [apply same_but_products_refl |].
      exists 0%nat, item. split; [done |]. split; [intros; lia |].
      do 2 right. exists p. cbn [take]; rewrite app_nil_r. split; [done |].
      split; [lia |]. simpl. f_equal; lia. }
    rewrite bind_run. unfold product_update_decrement. rewrite Hlook.
    set (db1 := with_store _ db).
    assert (Hinv1 : ∀ pid, products (store db1) !! pid
                    = add_stock (- ordered_qty pid (pre ++ [item])) <$> P0 !! pid).
    { intros pid. unfold db1. simpl. rewrite ordered_qty_app. simpl.
      destruct (decide (productId item = pid)) as [<- | Hne].
      - rewrite lookup_insert_eq, HP0. simpl. rewrite add_stock_add. do 2 f_equal. lia.
      - rewrite lookup_insert_ne by done. rewrite Hinv. do 2 f_equal. lia. }
    specialize (IH (pre ++ [item])
                  (acc ++ [mkOrderItemData (productId item) (quantity item)
                             (product_price (add_stock (- ordered_qty (productId item) pre) p))])
                  (total + product_price (add_stock (- ordered_qty (productId item) pre) p)
                           * quantity item) db1 P0 Hinv1).
    destruct IH as [Hsame IH]. split.
    { eapply same_but_products_trans; [apply same_but_products_set | apply Hsame]. }
    destruct (createOrder_loop rest _ _ db1) as [[[d t] | e] db2]; simpl in *.
    + destruct IH as (Hok & Hd & Ht & Hprod). repeat split.
      * intros [|i] it Hl; simpl in Hl.
        -- injection Hl as <-. cbn [take]; rewrite app_nil_r. exists p. split; [done | lia].
        -- specialize (Hok i it Hl). by rewrite <- app_assoc in Hok.
      * rewrite Hd, <- app_assoc. unfold line_data at 2, price_of. by rewrite HP0.
      * rewrite Ht. unfold price_of. rewrite HP0. simpl. lia.
      * intros pid. rewrite Hprod, <- app_assoc. done.
    + destruct IH as (k & it & Hl & Hpre & Hfail).
      exists (S k), it. split; [done |]. split.
      * intros [|i] it' Hi Hl'; simpl in Hl'.
        -- injection Hl' as <-. cbn [take]; rewrite app_nil_r. exists p. split; [done | lia].
        -- assert (Hi' : (i < k)%nat) by lia.
           specialize (Hpre i it' Hi' Hl'). by rewrite <- app_assoc in Hpre.
      * simpl. by rewrite <- app_assoc in Hfail.
Qed.

Lemma lookup_take_stock items P pid :
  take_stock items P !! pid = add_stock (- ordered_qty pid items) <$> P !! pid.
Proof. unfold take_stock. rewrite map_lookup_imap. by destruct (P !! pid). Qed.

Lemma Db_eta db : mkDb (store db) (orders_id_seq db) (clock db) = db.
Proof. by destruct db. Qed.

Lemma loop_final_state db db2 items :
  same_but_products db db2 →
  (∀ pid, products (store db2) !! pid
          = add_stock (- ordered_qty pid items) <$> products (store db) !! pid) →
  db2 = with_store (set_products (λ _, take_stock items (products (store db)))) db.
Proof.
  intros (Hu & Ho & Hi & Hp & Hs & Hc) Hprod.
  assert (Hmap : products (store db2) = take_stock items (products (store db))).
  { apply map_eq. intros pid. by rewrite Hprod, lookup_take_stock. }
  destruct db2 as [[u2 p2 o2 i2 pay2] s2 c2]. simpl in *. subst.
  reflexivity.
Qed.

(** Every run of [createOrderWith] falls in exactly one of the cases. *)
Lemma createOrderWith_cases authorize userId items db :
  creation_case authorize userId items db (createOrderWith authorize userId items db).
Proof.
  unfold createOrderWith, createOrder_body.
  rewrite bind_run. unfold transaction at 1.
  rewrite bind_run. unfold user_findUnique at 1, findUnique.
  destruct (users (store db) !! userId) as [u|] eqn:Hu.
  2:{ destruct (decide (int4 userId)) as [Hr | Hr].
      - rewrite throw_run, Db_eta. by apply case_no_user.
      - rewrite Db_eta. by apply case_user_out_of_range. }
  rewrite bind_run.
  pose proof (createOrder_loop_spec items [] [] 0 db (products (store db))) as Hloop.
  destruct Hloop as [Hsame Hloop].
  { intros pid. simpl. destruct (products (store db) !! pid) as [p|]; simpl; [|done].
    by rewrite add_stock_0. }
  destruct (createOrder_loop items [] 0 db) as [[[d t] | e] db2]; simpl in Hsame, Hloop.
  2:{ destruct Hloop as (k & item & Hl & Hpre & Hfail).
      destruct Hsame as (_ & _ & _ & _ & -> & ->). rewrite Db_eta.
      apply (case_line_fails _ _ _ _ k e); [by eexists |].
      exists item. done. }
  destruct Hloop as (Hok & -> & -> & Hprod).
  apply (loop_final_state db db2 items Hsame) in Hprod. subst db2.
  rewrite Z.add_0_l. cbn [app].
  rewrite bind_run. unfold order_create at 1. cbn [store with_store set_products orders
    orders_id_seq clock].
  destruct (orders (store db) !! orders_id_seq db) as [o|] eqn:Ho.
  { apply case_key_taken; [by eexists | done | by eexists]. }
  cbn [fst snd].
  destruct (success (authorize (order_total (products (store db)) items) (orders_id_seq db)))
    eqn:Hpay; cbn [negb].
  2:{ rewrite throw_run. by apply case_payment_declined; [eexists |..]. }
  rewrite bind_run. unfold payment_create at 1.
  cbn [store with_store set_products set_orders set_order_items payments].
  case_bool_decide as Hex.
  { by apply case_payment_exists; [eexists |..]. }
  rewrite ret_run. cbn [fst snd order_status order_totalAmount].
  rewrite ret_run.
  replace (with_store _ _) with (created userId items db).
  { by apply case_created; [eexists |..]. }
  unfold created, with_store, set_payments, set_order_items, set_orders, set_products.
  cbn [store users products orders order_items payments orders_id_seq clock].
  by rewrite item_row_line_data.
Qed.

Lemma line_fails_error P before item e :
  line_fails P before item e →
  e = ProductNotFound (productId item) ∨
  e = value_out_of_range ∨
  ∃ name available, e = InsufficientStock name available (quantity item).
Proof.
  intros [(_ & _ & ->) | [(_ & _ & ->) | (p & _ & _ & ->)]];
    [by left | right; by left | right; right; eauto].
Qed.

Lemma ordered_qty_absent pid items :
  (∀ item, item ∈ items → productId item ≠ pid) → ordered_qty pid items = 0.
Proof.
  induction items as [|x l IH]; intros H; simpl; [done |].
  rewrite IH by (intros; apply H; by right).
  destruct (decide (productId x = pid)) as [Heq | _]; [|done].
  exfalso. apply (H x); [by left | done].
Qed.

Lemma ordered_qty_distinct items item :
  NoDup (productId <$> items) → item ∈ items →
  ordered_qty (productId item) items = quantity item.
Proof.
  induction items as [|x l IH]; intros Hnd Hin; [by apply elem_of_nil in Hin |].
  rewrite fmap_cons in Hnd. apply NoDup_cons in Hnd as [Hx Hnd].
  simpl. apply elem_of_cons in Hin as [-> | Hin].
  - rewrite decide_True by done. rewrite ordered_qty_absent; [lia |].
    intros y Hy Heq. apply Hx. rewrite <- Heq. by apply list_elem_of_fmap_2.
  - rewrite decide_False.
    + rewrite IH by done. lia.
    + intros Heq. apply Hx. rewrite Heq. by apply list_elem_of_fmap_2.
Qed.

Lemma lines_ok_resolve P items item :
  lines_ok P items → item ∈ items →
  ∃ p, P !! productId item = Some p ∧ price_of P (productId item) = product_price p.
Proof.
  intros Hok Hin. apply list_elem_of_lookup in Hin as [i Hi].
  destruct (Hok i item Hi) as (p & Hp & _). exists p. split; [done |].
  unfold price_of. by rewrite Hp.
Qed.

Lemma createOrder_cases userId items db :
  creation_case (processPayment (clock db)) userId items db (createOrder userId items db).
Proof. apply createOrderWith_cases. Qed.

Lemma creation_case_ok authorize userId items db r db' :
  creation_case authorize userId items db (Ok r, db') →
  is_Some (users (store db) !! userId) ∧
  lines_ok (products (store db)) items ∧
  orders (store db) !! orders_id_seq db = None ∧
  r = mkOrderSummary (orders_id_seq db) Processing (order_total (products (store db)) items) ∧
  db' = created userId items db.
Proof. intros H. inversion H; subst. done. Qed.

Lemma creation_case_throw authorize userId items db e db' :
  creation_case authorize userId items db (Throw e, db') →
  store db' = store db.
Proof. intros H. inversion H; subst; done. Qed.

Lemma creation_case_first_failure authorize userId items db k e res :
  is_Some (users (store db) !! userId) →
  first_failure (products (store db)) items k e →
  creation_case authorize userId items db res →
  res = (Throw e, db).
Proof.
  intros Hu Hf H. inversion H; subst.
  - rewrite H0 in Hu. by destruct Hu.
  - rewrite H0 in Hu. by destruct Hu.
  - destruct (first_failure_unique _ _ _ _ _ _ Hf H1) as [_ ->]. done.
  - exfalso. eapply lines_ok_no_failure; eauto.
  - exfalso. eapply lines_ok_no_failure; eauto.
  - exfalso. eapply lines_ok_no_failure; eauto.
  - exfalso. eapply lines_ok_no_failure; eauto.
Qed.

(** ** Order creation: claims *)

(** C1. A call of [createOrder] that returns has persisted, under the key
    drawn from the sequence, an order with status [Processing] whose total
    is the sum over the supplied lines of price times quantity, at the
    prices the products had when the call started; it has appended one
    order-item row per line, recording the quantity and that price, and one
    payment row with status [Succeeded] for the order; every product's
    stock has gone down by the units requested of it (nothing for a
    product that is not ordered, the line's quantity when product
    identifiers are not repeated), names and prices are untouched, and the
    value returned is the order's key, status and total. *)
Theorem createOrder_success userId items db r db' :
  createOrder userId items db = (Ok r, db') →
  let P := products (store db) in
  let oid := orders_id_seq db in
  let total := order_total P items in
  r = mkOrderSummary oid Processing total ∧
  orders (store db) !! oid = None ∧
  orders (store db') = <[oid := mkOrder userId Processing total (clock db)]> (orders (store db)) ∧
  order_items (store db') = order_items (store db) ++ (line_row P oid <$> items) ∧
  rows_total (line_row P oid <$> items) = total ∧
  (∀ item, item ∈ items →
     ∃ p, P !! productId item = Some p ∧ price_of P (productId item) = product_price p) ∧
  payments (store db') = payments (store db) ++ [mkPayment oid total Succeeded] ∧
  (∀ pid, products (store db') !! pid = add_stock (- ordered_qty pid items) <$> P !! pid) ∧
  (∀ pid, (∀ item, item ∈ items → productId item ≠ pid) →
     products (store db') !! pid = P !! pid) ∧
  (NoDup (productId <$> items) → ∀ item, item ∈ items →
     products (store db') !! productId item
     = add_stock (- quantity item) <$> P !! productId item) ∧
  users (store db') = users (store db).
Proof.
  intros Hrun P oid total.
  pose proof (createOrder_cases userId items db) as Hcase. rewrite Hrun in Hcase.
  apply creation_case_ok in Hcase as (Hu & Hok & Hfresh & -> & ->).
  assert (Hstock : ∀ pid, products (store (created userId items db)) !! pid
                          = add_stock (- ordered_qty pid items) <$> P !! pid).
  { intros pid. apply lookup_take_stock. }
  repeat split; try done.
  - apply rows_total_lines.
  - intros item Hin. by apply (lines_ok_resolve P items).
  - intros pid Habs. rewrite Hstock, ordered_qty_absent by done.
    destruct (P !! pid); simpl; [by rewrite add_stock_0 | done].
  - intros Hnd item Hin. by rewrite Hstock, ordered_qty_distinct.
Qed.

Lemma createOrder_success_witness :
  let items := [mkOrderLine 1 2; mkOrderLine 2 3] in
  createOrder 1 items seed_db
  = (Ok (mkOrderSummary 1 Processing 11360198), created 1 items seed_db) ∧
  products (store (created 1 items seed_db)) !! 1 = Some (mkProduct "Laptop" 5500099 8) ∧
  payments (store (created 1 items seed_db)) = [mkPayment 1 11360198 Succeeded].
Proof.
  intros items.
  assert (Hrun : createOrder 1 items seed_db
                 = (Ok (mkOrderSummary 1 Processing 11360198), created 1 items seed_db))
    by (vm_compute; reflexivity).
  split; [exact Hrun |].
  destruct (createOrder_success 1 items seed_db _ _ Hrun)
    as (_ & _ & _ & _ & _ & _ & Hpay & Hstock & _).
  split; [rewrite Hstock; vm_compute; reflexivity | rewrite Hpay; vm_compute; reflexivity].
Defined.

(** C2. A call of [createOrder] that throws, whatever the error, leaves
    the five relations as they were, and so does a call of
    [createOrderWith] whatever the authorizer, one that declines included.
    In particular, when the user exists and the first line to fail a check
    asks for more units than its product has left, the call throws
    [InsufficientStock] with the product's name, the available and the
    requested quantity, and the database is unchanged. *)
Theorem createOrder_failure_atomic authorize userId items db :
  (∀ e db', createOrder userId items db = (Throw e, db') → store db' = store db) ∧
  (∀ e db', createOrderWith authorize userId items db = (Throw e, db') →
     store db' = store db) ∧
  (∀ k item p,
     is_Some (users (store db) !! userId) →
     items !! k = Some item →
     prefix_ok (products (store db)) items k →
     products (store db) !! productId item = Some p →
     product_stock p - ordered_qty (productId item) (take k items) < quantity item →
     createOrderWith authorize userId items db
     = (Throw (InsufficientStock (product_name p)
                 (product_stock p - ordered_qty (productId item) (take k items))
                 (quantity item)), db)).
Proof.
  split; [| split].
  - intros e db' Hrun.
    pose proof (createOrder_cases userId items db) as Hcase.
    rewrite Hrun in Hcase. by eapply creation_case_throw.
  - intros e db' Hrun.
    pose proof (createOrderWith_cases authorize userId items db) as Hcase.
    rewrite Hrun in Hcase. by eapply creation_case_throw.
  - intros k item p Hu Hk Hpre Hp Hlt.
    eapply creation_case_first_failure; [done | | apply createOrderWith_cases].
    exists item. split; [done |]. split; [done |]. do 2 right. exists p. done.
Qed.

Lemma createOrder_failure_atomic_witness :
  let items := [mkOrderLine 1 2; mkOrderLine 5 1] in
  createOrder 1 items seed_db = (Throw (InsufficientStock "iPhone" 0 1), seed_db) ∧
  store (createOrder 1 items seed_db).2 = store seed_db.
Proof.
  intros items.
  destruct (createOrder_failure_atomic (processPayment (clock seed_db)) 1 items seed_db)
    as (Hany & _ & Hstock).
  assert (Hrun : createOrder 1 items seed_db
                 = (Throw (InsufficientStock "iPhone" 0 1), seed_db)).
  { apply (Hstock 1%nat (mkOrderLine 5 1) (mkProduct "iPhone" 10000000 0)).
    - by eexists.
    - reflexivity.
    - intros i it Hi Hl. assert (i = 0%nat) as -> by lia.
      injection Hl as <-. exists (mkProduct "Laptop" 5500099 10). split; [reflexivity |].
      vm_compute. discriminate.
    - reflexivity.
    - vm_compute. reflexivity. }
  split; [exact Hrun |].
  apply (Hany (InsufficientStock "iPhone" 0 1)).
  rewrite Hrun. reflexivity.
Defined.

Lemma creation_case_PaymentFailed authorize userId items db res :
  creation_case authorize userId items db res →
  res.1 = Throw PaymentFailed →
  success (authorize (order_total (products (store db)) items) (orders_id_seq db)) = false.
Proof.
  intros Hcase Hthrow. destruct Hcase as [| | k e _ Hf | | | |]; simpl in Hthrow; try done.
  injection Hthrow as ->. destruct Hf as (item & _ & _ & Hfail).
  apply line_fails_error in Hfail as [? | [? | (? & ? & ?)]]; discriminate.
Qed.




(** X18. With the authorizer of [paymentService.js], whose answer is
    always a success, [createOrder] never throws [PaymentFailed], whatever
    the database, the user and the items. *)
Lemma createOrder_never_PaymentFailed userId items db :
  (createOrder userId items db).1 ≠ Throw PaymentFailed.
Proof.
  intros Hthrow.
  apply (creation_case_PaymentFailed _ _ _ _ _ (createOrder_cases userId items db)) in Hthrow.
  discriminate.
Qed.



Lemma seed_db_stock_typed pid p :
  products (store seed_db) !! pid = Some p → int4 (product_stock p).
Proof.
  revert pid p.
  change (map_Forall (λ _ p, int4 (product_stock p)) (products (store seed_db))).
  apply (bool_decide_unpack _). vm_compute. exact I.
Qed.



(** ** The restocking loop *)

Lemma lookup_restock rows P pid :
  restock rows P !! pid = add_stock (recorded_qty pid rows) <$> P !! pid.
Proof. unfold restock. rewrite map_lookup_imap. by destruct (P !! pid). Qed.

Lemma items_of_filter oid (l : list OrderItem) :
  items_of oid l = filter (λ row, item_orderId row = oid) l.
Proof. reflexivity. Qed.

Lemma cancelOrder_loop_spec rows : ∀ db,
  same_but_products db (cancelOrder_loop rows db).2 ∧
  match (cancelOrder_loop rows db).1 with
  | Ok _ =>
      (∀ row, row ∈ rows → is_Some (products (store db) !! item_productId row)) ∧
      (∀ pid, products (store (cancelOrder_loop rows db).2) !! pid
              = add_stock (recorded_qty pid rows) <$> products (store db) !! pid)
  | Throw e =>
      e = record_not_found ∧
      ∃ row, row ∈ rows ∧ products (store db) !! item_productId row = None
  end.
Proof.
  induction rows as [|row rest IH]; intros db.
  - simpl. split; [apply same_but_products_refl |]. split.
    + intros row Hin. by apply elem_of_nil in Hin.
    + intros pid. destruct (products (store db) !! pid); simpl; [by rewrite add_stock_0 | done].
  - simpl cancelOrder_loop. rewrite bind_run. unfold product_update_increment.
    destruct (products (store db) !! item_productId row) as [p|] eqn:Hp.
    2:{ simpl. split; [apply same_but_products_refl |]. split; [done |].
        exists row. split; [by left | done]. }
    set (db1 := with_store _ db).
    assert (Hlook : ∀ pid, products (store db1) !! pid
                    = <[item_productId row := add_stock (item_quantity row) p]>
                        (products (store db)) !! pid) by done.
    assert (Hset : same_but_products db db1) by apply same_but_products_set.
    clearbody db1.
    destruct (IH db1) as [Hsame Hres]. split.
    { eapply same_but_products_trans; [apply Hset | apply Hsame]. }
    destruct (cancelOrder_loop rest db1) as [[[] | e] db2]; simpl in *.
    + destruct Hres as [Hall Hprod]. split.
      * intros r Hin. apply elem_of_cons in Hin as [-> | Hin]; [by rewrite Hp |].
        specialize (Hall r Hin). rewrite Hlook in Hall.
        destruct (decide (item_productId row = item_productId r)) as [Heq | Hne].
        -- by rewrite <- Heq, Hp.
        -- by rewrite lookup_insert_ne in Hall.
      * intros pid. rewrite Hprod, Hlook.
        destruct (decide (item_productId row = pid)) as [<- | Hne].
        -- rewrite lookup_insert_eq, Hp. simpl. rewrite add_stock_add. done.
        -- rewrite lookup_insert_ne by done. by rewrite Z.add_0_l.
    + destruct Hres as [-> (r & Hin & Hnone)]. split; [done |].
      exists r. split; [by right |]. rewrite Hlook in Hnone.
      destruct (decide (item_productId row = item_productId r)) as [Heq | Hne].
      * rewrite Heq, lookup_insert_eq in Hnone. discriminate.
      * by rewrite lookup_insert_ne in Hnone.
Qed.

Lemma restock_final_state db db2 rows :
  same_but_products db db2 →
  (∀ pid, products (store db2) !! pid
          = add_stock (recorded_qty pid rows) <$> products (store db) !! pid) →
  db2 = with_store (set_products (λ _, restock rows (products (store db)))) db.
Proof.
  intros (Hu & Ho & Hi & Hp & Hs & Hc) Hprod.
  assert (Hmap : products (store db2) = restock rows (products (store db))).
  { apply map_eq. intros pid. by rewrite Hprod, lookup_restock. }
  destruct db2 as [[u2 p2 o2 i2 pay2] s2 c2]. simpl in *. subst.
  reflexivity.
Qed.

(** Every run of [cancelOrder] falls in exactly one of the cases. *)
Lemma cancelOrder_cases oid db : cancel_case oid db (cancelOrder oid db).
Proof.
  unfold cancelOrder, cancelOrder_body.
  rewrite bind_run. unfold transaction at 1.
  rewrite bind_run. unfold order_findUnique_with_items at 1, findUnique.
  destruct (orders (store db) !! oid) as [o|] eqn:Ho.
  2:{ destruct (decide (int4 oid)) as [Hr | Hr].
      - cbn. rewrite Db_eta. by apply cancel_no_order.
      - cbn. rewrite Db_eta. by apply cancel_out_of_range. }
  cbn [fmap option_fmap option_map].
  destruct (decide (order_status o = Cancelled)) as [Hc | Hc].
  { rewrite ret_run. cbn. rewrite Hc. by apply (cancel_already _ _ o). }
  destruct (decide (order_status o = Shipped ∨ order_status o = Delivered)) as [Hs | Hs].
  { rewrite throw_run, Db_eta. by apply cancel_refused. }
  assert (Hst : cancellable (order_status o)).
  { split; [done |]. split; intros Heq; apply Hs; auto. }
  rewrite bind_run.
  destruct (cancelOrder_loop_spec (items_of oid (order_items (store db))) db) as [Hsame Hres].
  destruct (cancelOrder_loop _ db) as [[[] | e] db2]; simpl in Hsame, Hres.
  2:{ destruct Hres as [-> (row & Hin & Hnone)].
      destruct Hsame as (_ & _ & _ & _ & -> & ->). rewrite Db_eta.
      by apply (cancel_dangling _ _ o row). }
  destruct Hres as [Hall Hprod].
  apply (restock_final_state db db2 _ Hsame) in Hprod. subst db2.
  rewrite bind_run. unfold order_update_status at 1.
  cbn [store with_store set_products orders]. rewrite Ho.
  rewrite ret_run. cbn [fst snd order_status with_status].
  rewrite ret_run.
  replace (with_store _ _) with (cancelled oid o db) by reflexivity.
  by apply cancel_done.
Qed.

Lemma cancellable_open st : st = Pending ∨ st = Processing → cancellable st.
Proof. intros [-> | ->]; by repeat split. Qed.

Lemma cancel_case_already oid db o res :
  cancel_case oid db res →
  orders (store db) !! oid = Some o → order_status o = Cancelled →
  res = (Ok (mkCancelResult oid Cancelled), db).
Proof.
  intros Hcase Ho Hst.
  destruct Hcase as [Hn | Hn | o' Ho' _ | o' Ho' Hs | o' row Ho' Hs | o' Ho' Hs]; try done;
    try congruence; assert (o' = o) by congruence; subst o'.
  - rewrite Hst in Hs. by destruct Hs.
  - by destruct Hs as [Hs _].
  - by destruct Hs as [Hs _].
Qed.

Lemma cancel_case_cancellable oid db o res :
  cancel_case oid db res →
  orders (store db) !! oid = Some o →
  cancellable (order_status o) →
  items_reference_products (store db) oid →
  res = (Ok (mkCancelResult oid Cancelled), cancelled oid o db).
Proof.
  intros Hcase Ho (Hc' & Hs' & Hd') Hfk.
  destruct Hcase as [Hn | Hn | o' Ho' Hc | o' Ho' Hs | o' row Ho' Hs Hin Hnone | o' Ho' Hs].
  - congruence.
  - congruence.
  - assert (o' = o) by congruence; subst o'. done.
  - assert (o' = o) by congruence; subst o'. by destruct Hs.
  - destruct (Hfk row Hin) as [p Hp]. congruence.
  - by assert (o' = o) as -> by congruence.
Qed.

Lemma cancel_case_open oid db o res :
  cancel_case oid db res →
  orders (store db) !! oid = Some o →
  order_status o = Pending ∨ order_status o = Processing →
  items_reference_products (store db) oid →
  res = (Ok (mkCancelResult oid Cancelled), cancelled oid o db).
Proof.
  intros Hcase Ho Hst Hfk.
  by apply (cancel_case_cancellable oid db o); [| | apply cancellable_open |].
Qed.


Lemma cancel_case_missing oid db res :
  cancel_case oid db res →
  orders (store db) !! oid = None →
  int4 oid →
  res = (Throw OrderNotFound, db).
Proof. intros Hcase Hn Hr. destruct Hcase; done || congruence. Qed.

Lemma cancel_case_unreachable oid db res :
  cancel_case oid db res →
  orders (store db) !! oid = None →
  ¬ int4 oid →
  res = (Throw value_out_of_range, db).
Proof. intros Hcase Hn Hr. destruct Hcase; done || congruence. Qed.

Lemma cancel_case_closed oid db o res :
  cancel_case oid db res →
  orders (store db) !! oid = Some o →
  order_status o = Shipped ∨ order_status o = Delivered →
  res = (Throw (NotCancelable (order_status o)), db).
Proof.
  intros Hcase Ho Hs.
  destruct Hcase as [Hn | Hn | o' Ho' Hc | o' Ho' _ | o' row Ho' Hp | o' Ho' Hp];
    try congruence; assert (o' = o) by congruence; subst o'; try done.
  - rewrite Hc in Hs. by destruct Hs.
  - destruct Hp as (_ & Hp1 & Hp2), Hs as [Hs | Hs]; congruence.
  - destruct Hp as (_ & Hp1 & Hp2), Hs as [Hs | Hs]; congruence.
Qed.


(** ** Order cancellation: claims *)

(** C3. Cancelling an order whose status is already [Cancelled] returns
    the order's key with status [Cancelled], raises nothing and leaves the
    database exactly as it was.  Hence whenever a cancellation succeeds,
    cancelling again from the state it left returns the same value and
    changes nothing. *)
Theorem cancelOrder_idempotent oid db :
  (∀ o, orders (store db) !! oid = Some o → order_status o = Cancelled →
        cancelOrder oid db = (Ok (mkCancelResult oid Cancelled), db)) ∧
  (∀ r db', cancelOrder oid db = (Ok r, db') →
            cancelOrder oid db' = (Ok r, db')).
Proof.
  split.
  - intros o Ho Hst. by eapply cancel_case_already; [apply cancelOrder_cases |..].
  - intros r db' Hrun.
    pose proof (cancelOrder_cases oid db) as Hcase. rewrite Hrun in Hcase.
    inversion Hcase; subst.
    + by eapply cancel_case_already; [apply cancelOrder_cases |..].
    + eapply cancel_case_already; [apply cancelOrder_cases | | ].
      * simpl. apply lookup_insert_eq.
      * done.
Qed.

Lemma cancelOrder_idempotent_witness :
  cancelOrder 1 ordered_db = (Ok (mkCancelResult 1 Cancelled), (cancelOrder 1 ordered_db).2) ∧
  cancelOrder 1 (cancelOrder 1 ordered_db).2
  = (Ok (mkCancelResult 1 Cancelled), (cancelOrder 1 ordered_db).2).
Proof.
  assert (Hrun : cancelOrder 1 ordered_db
                 = (Ok (mkCancelResult 1 Cancelled), (cancelOrder 1 ordered_db).2))
    by (vm_compute; reflexivity).
  split; [exact Hrun |].
  destruct (cancelOrder_idempotent 1 ordered_db) as [_ Hagain].
  apply Hagain. exact Hrun.
Defined.





Lemma two_orders_db_restock_fits : restock_fits two_orders_db 1.
Proof.
  split.
  - intros row Hin Heq. cbn in Hin.
    repeat (apply elem_of_cons in Hin as [-> | Hin]; [cbn; lia |]).
    by apply elem_of_nil in Hin.
  - change (map_Forall
              (λ pid p, int4 (product_stock p) ∧
                        int4 (product_stock p
                              + recorded_qty pid
                                  (filter (λ row, item_orderId row = 1)
                                     (order_items (store two_orders_db)))))
              (products (store two_orders_db))).
    apply (bool_decide_unpack _). vm_compute. exact I.
Qed.







(** ** Order detail assembly *)

Lemma map_items_pure l : ∀ db db0,
  (map_items l db).2 = db ∧ (map_items l db).1 = (map_items l db0).1.
Proof.
  induction l as [|item rest IH]; intros db db0; [done |].
  simpl map_items. rewrite !bind_run. unfold item_view.
  destruct item.2 as [[id name]|]; [| done].
  rewrite !ret_run, !bind_run.
  destruct (IH db db0) as [Hst Hres].
  destruct (map_items rest db) as [r1 d1], (map_items rest db0) as [r2 d2].
  simpl in Hst, Hres. subst. destruct r2; done.
Qed.

Lemma map_items_resolved (P : gmap Z Product) (rows : list OrderItem) db :
  (∀ row, row ∈ rows → is_Some (P !! item_productId row)) →
  map_items ((λ it, (it, (λ p, (item_productId it, product_name p))
                           <$> P !! item_productId it)) <$> rows) db
  = (Ok (row_view P <$> rows), db).
Proof.
  induction rows as [|row rest IH]; intros Hall; [done |].
  rewrite fmap_cons. simpl map_items. rewrite bind_run. unfold item_view. cbn [fst snd].
  destruct (Hall row) as [p Hp]; [by left |]. rewrite Hp. cbn [fmap option_fmap option_map].
  rewrite ret_run, bind_run, IH by (intros; apply Hall; by right).
  rewrite ret_run. rewrite fmap_cons. unfold row_view at 2, name_of. by rewrite Hp.
Qed.


Lemma getOrderDetails_read_only oid db : (getOrderDetails oid db).2 = db.
Proof.
  unfold getOrderDetails. rewrite bind_run. unfold order_findUnique_details, findUnique.
  destruct (orders (store db) !! oid) as [o|]; [| by destruct (decide (int4 oid))].
  cbn [fmap option_fmap option_map rec_user rec_order rec_orderItems].
  destruct (users (store db) !! order_userId o) as [u|]; [| done].
  cbn [fmap option_fmap option_map]. rewrite bind_run.
  match goal with |- context [map_items ?l db] =>
    destruct (map_items_pure l db db) as [Hst _];
    destruct (map_items l db) as [[v | e] d] end; simpl in Hst; by subst.
Qed.


Lemma getOrderDetails_missing oid db :
  orders (store db) !! oid = None → int4 oid →
  getOrderDetails oid db = (Throw OrderNotFound, db).
Proof.
  intros Hn Hr. unfold getOrderDetails. rewrite bind_run.
  unfold order_findUnique_details, findUnique.
  by rewrite Hn, decide_True.
Qed.

Lemma getOrderDetails_unreachable oid db :
  orders (store db) !! oid = None → ¬ int4 oid →
  getOrderDetails oid db = (Throw value_out_of_range, db).
Proof.
  intros Hn Hr. unfold getOrderDetails. rewrite bind_run.
  unfold order_findUnique_details, findUnique.
  by rewrite Hn, decide_False.
Qed.

Lemma getOrderDetails_found oid db o u :
  orders (store db) !! oid = Some o →
  users (store db) !! order_userId o = Some u →
  items_reference_products (store db) oid →
  getOrderDetails oid db
  = (Ok (mkOrderView oid (order_status o) (order_totalAmount o) (order_createdAt o)
           (mkUserView (order_userId o) (user_email u))
           (row_view (products (store db)) <$> items_of oid (order_items (store db)))),
     db).
Proof.
  intros Ho Hu Hfk. unfold getOrderDetails. rewrite bind_run.
  unfold order_findUnique_details, findUnique. rewrite Ho.
  cbn [fmap option_fmap option_map rec_user rec_order rec_orderItems]. rewrite Hu.
  cbn [fmap option_fmap option_map]. rewrite bind_run.
  rewrite (map_items_resolved (products (store db))) by done.
  by rewrite ret_run.
Qed.





(** ** The create-order handler *)

Lemma property_readable v name db :
  readable v → property v name db = (Ok (item_field v name), db).
Proof. intros [Hn Hu]. by destruct v. Qed.

(** The errors raised by reading [productId] from [null] or [undefined]. *)
Lemma property_unreadable v db :
  ¬ readable v →
  ∃ e, property v "productId" db = (Throw e, db) ∧
       includes (message e) "not found" = false ∧
       includes (message e) "Insufficient stock" = false.
Proof.
  intros Hnr. destruct v; try (exfalso; apply Hnr; by split).
  - eexists. split; [reflexivity |]. split; vm_compute; reflexivity.
  - eexists. split; [reflexivity |]. split; vm_compute; reflexivity.
Qed.

Lemma readable_dec v : readable v ∨ ¬ readable v.
Proof.
  destruct v; try (left; by split); right; intros [H1 H2]; congruence.
Qed.

Section ControllerFacts.

Variable StringToNumber : string → option Z.
Variable ToPrimitive : JsValue → string.

Lemma item_rejected_readable item db :
  readable item →
  item_rejected StringToNumber ToPrimitive item db
  = (Ok (negb (truthy (item_field item "productId"))
         || negb (truthy (item_field item "quantity"))
         || le_zero StringToNumber ToPrimitive (item_field item "quantity")), db).
Proof.
  intros Hr. unfold item_rejected. rewrite bind_run, property_readable by done.
  destruct (truthy (item_field item "productId")); cbn [negb orb]; [| done].
  by rewrite bind_run, property_readable.
Qed.

Lemma bad_item_rejected item :
  bad_item item →
  negb (truthy (item_field item "productId"))
  || negb (truthy (item_field item "quantity"))
  || le_zero StringToNumber ToPrimitive (item_field item "quantity") = true.
Proof.
  intros [Hp | [Hq | (n & Hq & Hn)]].
  - by rewrite Hp.
  - rewrite Hq. cbn. by rewrite orb_true_r.
  - rewrite Hq. unfold le_zero. cbn [ToNumber truthy].
    replace (n <=? 0) with true by (symmetry; by apply Z.leb_le).
    by rewrite !orb_true_r.
Qed.

Lemma validate_items_spec l : ∀ db,
  (validate_items StringToNumber ToPrimitive l db).2 = db ∧
  match (validate_items StringToNumber ToPrimitive l db).1 with
  | Ok None => ∀ item, item ∈ l → readable item ∧ ¬ bad_item item
  | Ok (Some response) => response = invalid_item
  | Throw e =>
      (∃ item, item ∈ l ∧ ¬ readable item) ∧
      includes (message e) "not found" = false ∧
      includes (message e) "Insufficient stock" = false
  end.
Proof.
  induction l as [|item rest IH]; intros db.
  - split; [done |]. intros item Hin. by apply elem_of_nil in Hin.
  - simpl validate_items. rewrite bind_run.
    destruct (readable_dec item) as [Hr | Hnr].
    + rewrite item_rejected_readable by done.
      destruct (negb _ || _ || _) eqn:Hrej.
      * by rewrite ret_run.
      * destruct (IH db) as [Hst Hres]. split; [done |].
        destruct (validate_items _ _ rest db) as [[[r|] | e] d]; simpl in *.
        -- done.
        -- intros it Hin. apply elem_of_cons in Hin as [-> | Hin]; [| by apply Hres].
           split; [done |]. intros Hbad. apply bad_item_rejected in Hbad. congruence.
        -- destruct Hres as [(it & Hin & Hit) Hmsg]. split; [| done].
           exists it. split; [by right | done].
    + unfold item_rejected. rewrite bind_run.
      destruct (property_unreadable item db Hnr) as (e & -> & Hmsg).
      split; [done |]. split; [| done]. exists item. split; [by left | done].
Qed.

(** A bad body never reaches the engine: whatever the engine is, the
    database is left as it was and the response is one of the two 400
    responses, or the 500 response when an item that is [null] comes
    before the first item the loop rejects. *)
Lemma createOrder_handler_bad_body body db :
  readable body → bad_body body →
  ∃ response,
    (∀ svc, createOrder_handler StringToNumber ToPrimitive svc body db = (response, db)) ∧
    (response = invalid_request ∨ response = invalid_item ∨
     (response = internal_server_error ∧
      ∃ item, item ∈ elements (item_field body "items") ∧ ¬ readable item)).
Proof.
  intros Hr Hbad. unfold createOrder_handler, createOrder_try.
  destruct (negb (truthy (item_field body "userId"))
            || negb (truthy (item_field body "items"))
            || negb (isArray (item_field body "items"))
            || bool_decide (length (elements (item_field body "items")) = 0%nat))
    eqn:Hguard.
  { exists invalid_request. split; [| by left]. intros svc.
    rewrite !bind_run, !property_readable by done.
    rewrite !bind_run, !property_readable by done.
    by rewrite Hguard. }
  pose proof Hguard as Hg.
  apply orb_false_iff in Hg as [Hg Hlen].
  apply orb_false_iff in Hg as [Hg Harr].
  apply orb_false_iff in Hg as [Hu Hi].
  apply negb_false_iff in Hu, Hi, Harr. apply bool_decide_eq_false in Hlen.
  assert (Hitem : ∃ item, item ∈ elements (item_field body "items") ∧ bad_item item).
  { destruct Hbad as [Hb | [Hb | [Hb | [Hb | Hb]]]]; [| | | | done].
    - rewrite Hb in Hu. discriminate.
    - rewrite Hb in Hi. discriminate.
    - congruence.
    - rewrite Hb in Hlen. by exfalso. }
  destruct Hitem as (item & Hin & Hbi).
  destruct (validate_items_spec (elements (item_field body "items")) db) as [Hst Hres].
  destruct (validate_items _ _ (elements (item_field body "items")) db)
    as [[[r|] | e] d] eqn:Hval; simpl in Hst, Hres; subst d.
  - subst r. exists invalid_item. split; [| right; by left]. intros svc.
    rewrite !bind_run, !property_readable by done.
    rewrite !bind_run, !property_readable by done.
    by rewrite Hguard, bind_run, Hval.
  - exfalso. by apply (Hres item Hin).
  - destruct Hres as (Hnull & Hm1 & Hm2).
    exists internal_server_error. split; [| right; by right]. intros svc.
    rewrite !bind_run, !property_readable by done.
    rewrite !bind_run, !property_readable by done.
    by rewrite Hguard, bind_run, Hval, Hm1, Hm2.
Qed.

End ControllerFacts.

(** C10 fails at a body whose [items] hold [null] before an item of
    quantity 0: reading [productId] from [null] throws, the [catch] does
    not recognise the message, and the handler answers 500 instead of 400.
    The engine is not called and the database is left as it was. *)
Theorem createOrder_handler_null_item StringToNumber ToPrimitive svc db :
  bad_body null_item_body ∧
  createOrder_handler StringToNumber ToPrimitive svc null_item_body db
  = (internal_server_error, db).
Proof.
  split; [| reflexivity].
  do 4 right.
  exists (JsObject [("productId", JsNumber 1); ("quantity", JsNumber 0)]). split.
  - cbn. apply elem_of_cons. right. apply elem_of_cons. by left.
  - do 2 right. by exists 0.
Qed.

(** ** Order creation, statement by statement *)

Lemma run_createOrder_loop_script items : ∀ acc total next db,
  run_script (createOrder_loop_script items acc total next) db
  = (createOrder_loop items acc total ≫= (λ r, run_script (next r))) db.
Proof.
  induction items as [|item rest IH]; intros acc total next db; [done |].
  simpl createOrder_loop_script. simpl createOrder_loop.
  cbn [run_script]. rewrite !bind_run.
  unfold product_findUnique, findUnique.
  destruct (products (store db) !! productId item) as [p|];
    [| by destruct (decide (int4 (productId item)))].
  case_bool_decide; [done |].
  cbn [run_script]. rewrite !bind_run.
  destruct (product_update_decrement (productId item) (quantity item) db) as [[p' | e] db1];
    [| done].
  rewrite IH. by rewrite bind_run.
Qed.

(** The script is the callback of [createOrder]. *)
Lemma run_createOrder_script authorize userId items db :
  run_script (createOrder_script authorize userId items) db
  = createOrder_body authorize userId items db.
Proof.
  unfold createOrder_script, createOrder_body.
  cbn [run_script]. rewrite !bind_run. unfold user_findUnique, findUnique.
  destruct (users (store db) !! userId) as [u|];
    [| by destruct (decide (int4 userId))].
  rewrite run_createOrder_loop_script, !bind_run.
  destruct (createOrder_loop items [] 0 db) as [[[d t] | e] db1]; [| done].
  cbn [run_script]. rewrite !bind_run.
  destruct (order_create userId Processing t d db1) as [[order | e] db2]; [| done].
  destruct (success (authorize t order.1)); cbn [negb]; [| done].
  cbn [run_script]. rewrite !bind_run.
  by destruct (payment_create order.1 t Succeeded db2) as [[[] | e] db3].
Qed.

(** ** Transactions side by side *)

Lemma view_open_session script db : view db (mkSession script ∅ ∅ [] []) = db.
Proof.
  destruct db as [[u p o i pay] s c]. unfold view. cbn.
  by rewrite !(left_id_L ∅ (∪)), !app_nil_r.
Qed.

Lemma run_schedule_next stock_check n w :
  run_schedule stock_check (replicate (S n) 0%nat) w
  = run_schedule stock_check (replicate n 0%nat) (advance stock_check w 0).
Proof. reflexivity. Qed.

Lemma advance_alone s db :
  advance false (mkServer db [Running s]) 0
  = match step_session false (λ _, false) db s with
    | Some (db', c) => mkServer db' [c]
    | None => mkServer db [Running s]
    end.
Proof. reflexivity. Qed.

Lemma run_raise e db wp io ii ip :
  run_schedule false (replicate 1 0%nat)
    (mkServer db [Running (mkSession (Raise e) wp io ii ip)])
  = mkServer db [Finished (Throw e)].
Proof. reflexivity. Qed.

(** A client with no company goes through its script as [run_script] does
    on the client's view of the database, and settles as [transaction]
    does. *)
Ltac step_alone :=
  rewrite run_schedule_next, advance_alone;
  cbn [step_session script written_products inserted_orders inserted_items
       inserted_payments].

Lemma lone_client_agrees script : ∀ db wp io ii ip,
  let s := mkSession script wp io ii ip in
  ∃ n, run_schedule false (replicate n 0%nat) (mkServer db [Running s])
       = mkServer (settled db (run_script script (view db s)))
                  [Finished (run_script script (view db s)).1].
Proof.
  induction script as [result | e | id next IH | id next IH | id n next IH
                       | userId st total data next IH | orderId amount st next IH];
    intros db wp io ii ip; cbn zeta.
  - exists 1%nat. reflexivity.
  - exists 1%nat. rewrite run_raise. unfold settled. cbn. by rewrite Db_eta.
  - cbn [run_script]. rewrite !bind_run. unfold user_findUnique.
    change (users (store (view db (mkSession (FindUser id next) wp io ii ip))))
      with (users (store db)).
    destruct (findUnique (users (store db)) id) as [user | e] eqn:Hfind.
    + destruct (IH user db wp io ii ip) as [n Hn].
      exists (S n). step_alone. rewrite Hfind. rewrite Hn. done.
    + exists 2%nat. step_alone. rewrite Hfind.
      rewrite run_raise. unfold settled. cbn. by rewrite Db_eta.
  - cbn [run_script]. rewrite !bind_run. unfold product_findUnique.
    destruct (findUnique (products (store (view db (mkSession (FindProduct id next)
                                                        wp io ii ip)))) id)
      as [product | e] eqn:Hfind.
    + destruct (IH product db wp io ii ip) as [n Hn].
      exists (S n). step_alone.
      change (products (store (view db (mkSession (FindProduct id next) wp io ii ip))))
        with (written_products (mkSession (FindProduct id next) wp io ii ip)
              ∪ products (store db)) in Hfind.
      cbn [written_products] in Hfind. cbn [view store products written_products].
      rewrite Hfind. rewrite Hn. done.
    + exists 2%nat. step_alone.
      change (products (store (view db (mkSession (FindProduct id next) wp io ii ip))))
        with (wp ∪ products (store db)) in Hfind.
      cbn [view store products written_products]. rewrite Hfind.
      rewrite run_raise. unfold settled. cbn. by rewrite Db_eta.
  - cbn [run_script]. rewrite !bind_run. unfold product_update_decrement.
    destruct (products (store (view db _)) !! id) as [p|] eqn:Hp.
    + destruct (IH (add_stock (- n) p) db (<[id := add_stock (- n) p]> wp) io ii ip)
        as [m Hm].
      exists (S m). step_alone. rewrite Hp. cbn [andb].
      cbn [written_products inserted_orders inserted_items inserted_payments].
      rewrite Hm.
      replace (with_store _ (view db _))
        with (view db (mkSession (next (add_stock (- n) p))
                         (<[id := add_stock (- n) p]> wp) io ii ip)); [done |].
      unfold view, with_store, set_products. cbn. by rewrite insert_union_l.
    + exists 2%nat. step_alone. rewrite Hp.
      cbn [written_products inserted_orders inserted_items inserted_payments].
      rewrite run_raise. unfold settled. cbn. by rewrite Db_eta.
  - cbn [run_script]. rewrite !bind_run. unfold order_create.
    cbn [orders_id_seq view clock].
    destruct (orders (store (view db _)) !! orders_id_seq db) as [o|] eqn:Ho.
    + exists 2%nat. step_alone. rewrite Ho.
      cbn [written_products inserted_orders inserted_items inserted_payments].
      rewrite run_raise. unfold settled. done.
    + set (o := mkOrder userId st total (clock db)).
      destruct (IH (orders_id_seq db, o)
                  (mkDb (store db) (orders_id_seq db + 1) (clock db))
                  wp (<[orders_id_seq db := o]> io)
                  (ii ++ (item_row (orders_id_seq db) <$> data)) ip) as [m Hm].
      exists (S m). step_alone. rewrite Ho.
      cbn [written_products inserted_orders inserted_items inserted_payments].
      fold o. rewrite Hm.
      replace (with_store _ _)
        with (view (mkDb (store db) (orders_id_seq db + 1) (clock db))
                (mkSession (next (orders_id_seq db, o)) wp
                   (<[orders_id_seq db := o]> io)
                   (ii ++ (item_row (orders_id_seq db) <$> data)) ip)); [done |].
      unfold view, with_store, set_order_items, set_orders. cbn.
      by rewrite insert_union_l, app_assoc.
  - cbn [run_script]. rewrite !bind_run. unfold payment_create.
    case_bool_decide as Hex.
    + exists 2%nat. step_alone. rewrite bool_decide_eq_true_2 by done.
      cbn [written_products inserted_orders inserted_items inserted_payments].
      rewrite run_raise. unfold settled. cbn. by rewrite Db_eta.
    + destruct (IH () db wp io ii (ip ++ [mkPayment orderId amount st])) as [m Hm].
      exists (S m). step_alone. rewrite bool_decide_eq_false_2 by done.
      cbn [written_products inserted_orders inserted_items inserted_payments].
      rewrite Hm.
      replace (with_store _ (view db _))
        with (view db (mkSession (next ()) wp io ii
                         (ip ++ [mkPayment orderId amount st]))); [done |].
      unfold view, with_store, set_payments. cbn. by rewrite app_assoc.
Qed.

(** A lone client running the script of [createOrder] ends as the
    transaction of [createOrderWith] does. *)
Lemma lone_createOrder_agrees authorize userId items db :
  ∃ n, run_schedule false (replicate n 0%nat)
         (mkServer db [open_session (createOrder_script authorize userId items)])
       = mkServer (transaction (createOrder_body authorize userId items) db).2
                  [Finished (transaction (createOrder_body authorize userId items) db).1].
Proof.
  destruct (lone_client_agrees (createOrder_script authorize userId items) db ∅ ∅ [] [])
    as [n Hn].
  exists n. unfold open_session. rewrite Hn.
  rewrite view_open_session, run_createOrder_script.
  unfold transaction, settled.
  by destruct (createOrder_body authorize userId items db) as [[r | e] db'].
Qed.

(** C9 fails when both buyers read the stock before either writes it.  Each
    sees one unit and passes the check; the second decrement waits for the
    first transaction to commit and then applies to the row it left.  On a
    store without a check on [stock] both orders are created and the stock
    ends at -1; on a store that enforces [stock >= 0] the second
    transaction is refused by the constraint, not with
    [InsufficientStock].  One after the other, the two transactions do end
    as the claim says. *)
Theorem createOrder_race_oversells :
  (∀ stock_check, ¬ one_sale 4 (run_schedule stock_check racing_schedule two_buyers)) ∧
  (let w := run_schedule false racing_schedule two_buyers in
   clients w = [Finished (Ok (1, mkOrder 1 Processing 80000 1771158600000));
                Finished (Ok (2, mkOrder 2 Processing 80000 1771158600000))] ∧
   products (store (committed w)) !! 4 = Some (mkProduct "Keyboard" 80000 (-1))) ∧
  (let w := run_schedule true racing_schedule two_buyers in
   clients w = [Finished (Ok (1, mkOrder 1 Processing 80000 1771158600000));
                Finished (Throw check_violation)] ∧
   products (store (committed w)) !! 4 = Some (mkProduct "Keyboard" 80000 0)) ∧
  (∀ stock_check, one_sale 4 (run_schedule stock_check one_after_the_other two_buyers)).
Proof.
  split; [| split; [| split]].
  - intros [] [(r & name & available & requested & [H | H]) Hstock].
    + vm_compute in H. discriminate H.
    + vm_compute in H. discriminate H.
    + vm_compute in Hstock. discriminate Hstock.
    + vm_compute in Hstock. discriminate Hstock.
  - vm_compute. split; reflexivity.
  - vm_compute. split; reflexivity.
  - intros []; (split; [| vm_compute; reflexivity]);
      exists (1, mkOrder 1 Processing 80000 1771158600000), "Keyboard"%string, 0, 1;
      left; vm_compute; reflexivity.
Qed.

(** ** Integrity of the store across the engine's operations *)

Lemma items_of_app oid (l1 l2 : list OrderItem) :
  items_of oid (l1 ++ l2) = items_of oid l1 ++ items_of oid l2.
Proof. unfold items_of. apply filter_app. Qed.

Lemma items_of_other oid (l : list OrderItem) :
  (∀ row, row ∈ l → item_orderId row ≠ oid) → items_of oid l = [].
Proof.
  intros H. unfold items_of. induction l as [|row rest IH]; [done |].
  rewrite filter_cons_False; [| apply H; by left].
  apply IH. intros r Hr. apply H. by right.
Qed.

Lemma items_of_line_rows P oid (items : list OrderLine) :
  items_of oid (line_row P oid <$> items) = line_row P oid <$> items.
Proof.
  unfold items_of. induction items as [|x l IH]; [done |].
  rewrite fmap_cons, filter_cons_True by done. by rewrite IH.
Qed.

Lemma items_of_line_rows_other P oid oid' (items : list OrderLine) :
  oid ≠ oid' → items_of oid' (line_row P oid <$> items) = [].
Proof.
  intros Hne. apply items_of_other. intros row Hin.
  apply list_elem_of_fmap in Hin as (item & -> & _). done.
Qed.

Lemma recorded_qty_line_rows P oid pid (items : list OrderLine) :
  recorded_qty pid (line_row P oid <$> items) = ordered_qty pid items.
Proof.
  induction items as [|x l IH]; [done |].
  rewrite fmap_cons. cbn [recorded_qty ordered_qty line_row item_productId item_quantity].
  by rewrite IH.
Qed.

(** The rows of a fresh key: none before the order, its lines after. *)
Lemma items_of_created userId items db :
  integrity db →
  orders (store db) !! orders_id_seq db = None →
  items_of (orders_id_seq db) (order_items (store (created userId items db)))
  = line_row (products (store db)) (orders_id_seq db) <$> items.
Proof.
  intros Hint Hfresh. cbn [created store order_items].
  rewrite items_of_app, items_of_line_rows.
  rewrite (items_of_other (orders_id_seq db)); [done |].
  intros row Hin Heq. destruct (items_have_order db Hint row Hin) as [o Ho].
  rewrite Heq in Ho. congruence.
Qed.

Lemma lines_ok_snoc P items item :
  lines_ok P (items ++ [item]) → lines_ok P items ∧ line_ok P items item.
Proof.
  intros Hok. split.
  - intros i it Hi. pose proof (lookup_lt_Some _ _ _ Hi) as Hlt.
    specialize (Hok i it). rewrite lookup_app_l, take_app_le in Hok by lia. by apply Hok.
  - specialize (Hok (length items) item).
    rewrite take_app_length in Hok. apply Hok.
    by rewrite lookup_app_r, Nat.sub_diag by lia.
Qed.

(** Lines that pass their checks never take more than there is. *)
Lemma lines_ok_stock_left P items : ∀ pid p,
  lines_ok P items → P !! pid = Some p → 0 ≤ product_stock p →
  0 ≤ product_stock p - ordered_qty pid items.
Proof.
  induction items as [|item items IH] using rev_ind; intros pid p Hok Hp Hnn.
  - simpl. lia.
  - apply lines_ok_snoc in Hok as [Hok (q & Hq & Hle)].
    rewrite ordered_qty_app. cbn [ordered_qty].
    destruct (decide (productId item = pid)) as [Heq | Hne].
    + rewrite Heq in Hq, Hle. assert (q = p) as -> by congruence. lia.
    + specialize (IH pid p Hok Hp Hnn). lia.
Qed.

Lemma integrity_key_drawn db : integrity db → integrity (key_drawn db).
Proof.
  intros [H1 H2 H3 H4 H5 H6 H7]. split; try done.
  intros oid Ho. specialize (H6 oid Ho). cbn. lia.
Qed.

Lemma integrity_created userId items db :
  integrity db →
  is_Some (users (store db) !! userId) →
  lines_ok (products (store db)) items →
  orders (store db) !! orders_id_seq db = None →
  integrity (created userId items db).
Proof.
  intros Hint Hu Hok Hfresh. pose proof Hint as [H1 H2 H3 H4 H5 H6 H7].
  split; cbn [created store order_items products orders users payments orders_id_seq].
  - intros row Hin. apply elem_of_app in Hin as [Hin | Hin].
    + apply lookup_insert_is_Some'. right. by apply H1.
    + apply list_elem_of_fmap in Hin as (item & -> & _).
      cbn. rewrite lookup_insert_eq. by eexists.
  - intros row Hin. rewrite lookup_take_stock, fmap_is_Some.
    apply elem_of_app in Hin as [Hin | Hin]; [by apply H2 |].
    apply list_elem_of_fmap in Hin as (item & -> & Hitem).
    destruct (lines_ok_resolve _ _ _ Hok Hitem) as (p & Hp & _). cbn. by eexists.
  - intros k o Hk. apply lookup_insert_Some in Hk as [[_ <-] | [_ Hk]]; [done |].
    by apply (H3 k).
  - intros pay Hin. apply lookup_insert_is_Some'.
    apply elem_of_app in Hin as [Hin | Hin]; [right; by apply H4 |].
    apply list_elem_of_singleton in Hin as ->. by left.
  - rewrite fmap_app. apply NoDup_app. split; [done |]. split; [| apply NoDup_singleton].
    intros k Hk Hk'. apply list_elem_of_singleton in Hk' as ->.
    apply list_elem_of_fmap in Hk as (pay & Heq & Hpay).
    destruct (H4 pay Hpay) as [o Ho]. rewrite <- Heq in Ho. cbn in Ho.
    congruence.
  - intros k Hk. apply lookup_insert_is_Some' in Hk as [<- | Hk]; [lia |].
    specialize (H6 k Hk). lia.
  - intros k o Hk. apply lookup_insert_Some in Hk as [[<- <-] | [Hne Hk]].
    + pose proof (items_of_created userId items db Hint Hfresh) as Hrows.
      cbn [created store order_items] in Hrows. rewrite Hrows.
      by rewrite rows_total_lines.
    + rewrite items_of_app, items_of_line_rows_other by done.
      rewrite app_nil_r. by apply H7.
Qed.

Lemma creation_case_state authorize userId items db res :
  creation_case authorize userId items db res →
  res.2 = db ∨ res.2 = key_drawn db ∨
  (is_Some (users (store db) !! userId) ∧
   lines_ok (products (store db)) items ∧
   orders (store db) !! orders_id_seq db = None ∧
   res.2 = created userId items db).
Proof. intros Hcase. destruct Hcase; auto 10. Qed.

(** X1. Whatever the authorizer and whatever the outcome, order creation
    keeps the constraints of the schema: every order item references an
    order and a product, every order a user, every payment an order, no
    order has two payments, order keys lie below the sequence, and the
    total of every order is the sum over its rows of price times
    quantity. *)
Theorem createOrder_keeps_integrity authorize userId items db :
  integrity db → integrity (createOrderWith authorize userId items db).2.
Proof.
  intros Hint.
  destruct (creation_case_state _ _ _ _ _ (createOrderWith_cases authorize userId items db))
    as [-> | [-> | (Hu & Hok & Hfresh & ->)]].
  - done.
  - by apply integrity_key_drawn.
  - by apply integrity_created.
Qed.

Lemma seed_db_integrity : integrity seed_db.
Proof.
  split; cbn.
  - intros row Hin. by apply elem_of_nil in Hin.
  - intros row Hin. by apply elem_of_nil in Hin.
  - intros oid o Ho. by rewrite lookup_empty in Ho.
  - intros pay Hin. by apply elem_of_nil in Hin.
  - apply NoDup_nil_2.
  - intros oid [o Ho]. by rewrite lookup_empty in Ho.
  - intros oid o Ho. by rewrite lookup_empty in Ho.
Qed.

Lemma createOrder_keeps_integrity_witness :
  integrity (createOrder 1 [mkOrderLine 1 2; mkOrderLine 2 3] seed_db).2.
Proof.
  apply (createOrder_keeps_integrity (processPayment (clock seed_db)) 1
           [mkOrderLine 1 2; mkOrderLine 2 3] seed_db).
  apply seed_db_integrity.
Defined.

(** X2. A call of order creation that runs on its own, with no other
    transaction between its reads and its writes, does not oversell: when
    no product has negative stock before the call, none has after it,
    whatever the quantities asked for, the authorizer and the outcome.
    Two calls side by side can oversell: see the transactions run side
    by side. *)
Theorem createOrder_keeps_stock_nonneg authorize userId items db :
  stock_nonneg db → stock_nonneg (createOrderWith authorize userId items db).2.
Proof.
  intros Hnn.
  destruct (creation_case_state _ _ _ _ _ (createOrderWith_cases authorize userId items db))
    as [-> | [-> | (Hu & Hok & Hfresh & ->)]]; [done | done |].
  intros pid p' Hp'. cbn in Hp'. rewrite lookup_take_stock in Hp'.
  destruct (products (store db) !! pid) as [p|] eqn:Hp; [| done].
  injection Hp' as <-. cbn.
  pose proof (lines_ok_stock_left _ _ pid p Hok Hp (Hnn pid p Hp)). lia.
Qed.

Lemma seed_db_stock_nonneg : stock_nonneg seed_db.
Proof.
  intros pid p Hp. cbn in Hp.
  repeat (apply lookup_insert_Some in Hp as [[_ <-] | [_ Hp]]; [cbn; lia |]).
  by rewrite lookup_empty in Hp.
Qed.

Lemma createOrder_keeps_stock_nonneg_witness :
  stock_nonneg (createOrder 1 [mkOrderLine 1 10; mkOrderLine 2 (-3)] seed_db).2.
Proof.
  apply (createOrder_keeps_stock_nonneg (processPayment (clock seed_db)) 1
           [mkOrderLine 1 10; mkOrderLine 2 (-3)] seed_db).
  apply seed_db_stock_nonneg.
Defined.

Lemma integrity_key_unused db :
  integrity db →
  orders (store db) !! orders_id_seq db = None ∧
  ¬ Exists (λ p, payment_orderId p = orders_id_seq db) (payments (store db)).
Proof.
  intros Hint.
  assert (Hfresh : orders (store db) !! orders_id_seq db = None).
  { destruct (orders (store db) !! orders_id_seq db) as [o|] eqn:Ho; [| done].
    pose proof (keys_drawn db Hint (orders_id_seq db)) as Hlt.
    rewrite Ho in Hlt. specialize (Hlt (mk_is_Some _ _ eq_refl)). lia. }
  split; [done |]. intros Hex. apply Exists_exists in Hex as (pay & Hin & Heq).
  destruct (payments_have_order db Hint pay Hin) as [o Ho]. congruence.
Qed.

Lemma createOrder_progress userId items db :
  integrity db →
  is_Some (users (store db) !! userId) →
  lines_ok (products (store db)) items →
  createOrder userId items db
  = (Ok (mkOrderSummary (orders_id_seq db) Processing
           (order_total (products (store db)) items)),
     created userId items db).
Proof.
  intros Hint Hu Hok. destruct (integrity_key_unused db Hint) as [Hfresh Hnopay].
  destruct (createOrder_cases userId items db)
    as [Hn | Hn | k e _ Hf | _ _ Hk | _ _ _ Hs | _ _ _ _ Hex |].
  - rewrite Hn in Hu. by destruct Hu.
  - rewrite Hn in Hu. by destruct Hu.
  - exfalso. eapply lines_ok_no_failure; eauto.
  - rewrite Hfresh in Hk. by destruct Hk.
  - discriminate.
  - done.
  - done.
Qed.

(** X3. On a database that satisfies the constraints of the schema, and
    for a request whose writes fit their columns, [createOrder] returns
    exactly when the user exists and every line passes its checks, and it
    then leaves the state [created]; when it throws, the whole database,
    the key sequence included, is as it was before the call, and the error
    is [UserNotFound] for a user that does not exist, [ProductNotFound]
    for a requested product that does not resolve, [InsufficientStock] for
    a requested product, or the range error of the store for a user or
    product identifier that the key column cannot hold. *)
Theorem createOrder_outcomes userId items db :
  integrity db →
  values_fit db items →
  let P := products (store db) in
  (is_Some (users (store db) !! userId) ∧ lines_ok P items ↔
   createOrder userId items db
   = (Ok (mkOrderSummary (orders_id_seq db) Processing (order_total P items)),
      created userId items db)) ∧
  (∀ e db', createOrder userId items db = (Throw e, db') →
     db' = db ∧
     ((e = UserNotFound ∧ users (store db) !! userId = None) ∨
      (∃ item, item ∈ items ∧ P !! productId item = None ∧
               e = ProductNotFound (productId item)) ∨
      (∃ item p available, item ∈ items ∧ P !! productId item = Some p ∧
               available < quantity item ∧
               e = InsufficientStock (product_name p) available (quantity item)) ∨
      (e = value_out_of_range ∧
       (¬ int4 userId ∨ ∃ item, item ∈ items ∧ ¬ int4 (productId item))))).
Proof.
  intros Hint _ P. destruct (integrity_key_unused db Hint) as [Hfresh Hnopay].
  pose proof (createOrder_cases userId items db) as Hcase.
  split; [split |].
  - intros [Hu Hok]. by apply createOrder_progress.
  - intros Hrun. rewrite Hrun in Hcase.
    apply creation_case_ok in Hcase as (Hu & Hok & _). done.
  - intros e db' Hrun. rewrite Hrun in Hcase.
    inversion Hcase as [Hn Hr | Hn Hr | k e' _ Hf | _ _ Hk | _ _ _ Hs | _ _ _ _ Hex |]; subst.
    + split; [done |]. do 3 right. split; [done | by left].
    + split; [done | by left].
    + split; [done |]. right.
      destruct Hf as (item & Hl & _ & [(Hnone & Hr & ->) | [(Hnone & Hr & ->)
                                                           | (p & Hp & Hlt & ->)]]).
      * left. exists item. split; [by eapply list_elem_of_lookup_2 | done].
      * do 2 right. split; [done |]. right.
        exists item. split; [by eapply list_elem_of_lookup_2 | done].
      * right. left. exists item, p. eexists.
        split; [by eapply list_elem_of_lookup_2 | done].
    + rewrite Hfresh in Hk. by destruct Hk.
    + discriminate.
    + done.
Qed.

Lemma seed_db_values_fit items :
  (∀ item, item ∈ items → 0 ≤ quantity item) →
  decimal_10_2 (order_total (products (store seed_db)) items) →
  values_fit seed_db items.
Proof.
  intros Hq Htotal. split; [split; [apply seed_db_stock_typed | exact Hq] |].
  split; [| split; [exact Htotal | unfold int4; cbn; lia]].
  change (map_Forall (λ _ p, decimal_10_2 (product_price p)) (products (store seed_db))).
  apply (bool_decide_unpack _). vm_compute. exact I.
Qed.

Lemma createOrder_outcomes_witness :
  createOrder 1 [mkOrderLine 1 10; mkOrderLine 2 50] seed_db
  = (Ok (mkOrderSummary 1 Processing 61000990),
     created 1 [mkOrderLine 1 10; mkOrderLine 2 50] seed_db) ∧
  createOrder 1 [mkOrderLine 1 10; mkOrderLine 3000000000 1] seed_db
  = (Throw value_out_of_range, seed_db).
Proof.
  assert (Hfit : ∀ pid, pid = 2 ∨ pid = 3000000000 →
                        values_fit seed_db [mkOrderLine 1 10; mkOrderLine pid 50]).
  { intros pid Hpid. apply seed_db_values_fit.
    - intros item Hin. repeat (apply elem_of_cons in Hin as [-> | Hin]; [cbn; lia |]).
      by apply elem_of_nil in Hin.
    - apply (bool_decide_unpack _). destruct Hpid as [-> | ->]; vm_compute; exact I. }
  destruct (createOrder_outcomes 1 [mkOrderLine 1 10; mkOrderLine 2 50] seed_db
              seed_db_integrity (Hfit 2 (or_introl eq_refl))) as [[Hrun _] _].
  destruct (createOrder_outcomes 1 [mkOrderLine 1 10; mkOrderLine 3000000000 50] seed_db
              seed_db_integrity (Hfit 3000000000 (or_intror eq_refl))) as [_ Hthrow].
  split.
  - apply Hrun. split; [by eexists |].
    intros i it Hl. destruct i as [|[|i]]; simpl in Hl; [| | done].
    + injection Hl as <-. exists (mkProduct "Laptop" 5500099 10).
      split; [reflexivity | vm_compute; discriminate].
    + injection Hl as <-. exists (mkProduct "Wireless Mouse" 120000 50).
      split; [reflexivity | vm_compute; discriminate].
  - reflexivity.
Defined.

Lemma integrity_cancelled oid o db :
  integrity db →
  orders (store db) !! oid = Some o →
  integrity (cancelled oid o db).
Proof.
  intros [H1 H2 H3 H4 H5 H6 H7] Ho.
  split; cbn [cancelled store order_items products orders users payments orders_id_seq].
  - intros row Hin. apply lookup_insert_is_Some'. right. by apply H1.
  - intros row Hin. rewrite lookup_restock, fmap_is_Some. by apply H2.
  - intros k o' Hk. apply lookup_insert_Some in Hk as [[<- <-] | [_ Hk]].
    + by apply (H3 oid o).
    + by apply (H3 k).
  - intros pay Hin. apply lookup_insert_is_Some'. right. by apply H4.
  - done.
  - intros k Hk. apply lookup_insert_is_Some' in Hk as [<- | Hk]; apply H6; [by eexists | done].
  - intros k o' Hk. apply lookup_insert_Some in Hk as [[<- <-] | [_ Hk]].
    + by apply (H7 oid o).
    + by apply (H7 k).
Qed.

Lemma cancel_case_state oid db res :
  cancel_case oid db res →
  res.2 = db ∨
  ∃ o, orders (store db) !! oid = Some o ∧
       cancellable (order_status o) ∧
       res.2 = cancelled oid o db.
Proof. intros Hcase. destruct Hcase; eauto 10. Qed.

(** X4. Whatever the outcome, order cancellation keeps the constraints of
    the schema and the total of every order. *)
Theorem cancelOrder_keeps_integrity oid db :
  integrity db → integrity (cancelOrder oid db).2.
Proof.
  intros Hint.
  destruct (cancel_case_state _ _ _ (cancelOrder_cases oid db)) as [-> | (o & Ho & _ & ->)].
  - done.
  - by apply integrity_cancelled.
Qed.

Lemma ordered_db_integrity : integrity ordered_db.
Proof.
  apply integrity_created; [apply seed_db_integrity | by eexists | | reflexivity].
  intros i it Hl. destruct i as [|[|i]]; simpl in Hl; [| | done].
  - injection Hl as <-. exists (mkProduct "Laptop" 5500099 10).
    split; [reflexivity | vm_compute; discriminate].
  - injection Hl as <-. exists (mkProduct "Wireless Mouse" 120000 50).
    split; [reflexivity | vm_compute; discriminate].
Qed.

Lemma cancelOrder_keeps_integrity_witness : integrity (cancelOrder 1 ordered_db).2.
Proof. apply (cancelOrder_keeps_integrity 1 ordered_db). apply ordered_db_integrity. Defined.

Lemma integrity_references db oid :
  integrity db → items_reference_products (store db) oid.
Proof.
  intros Hint row Hin. apply (items_have_product db Hint).
  unfold items_of in Hin. by apply list_elem_of_filter in Hin as [_ Hin].
Qed.

(** X5. On a database that satisfies the constraints of the schema, and
    when putting back the quantities of the order fits the [INTEGER]
    column of [stock], [cancelOrder] returns, with status [Cancelled],
    exactly when the order exists and is neither [Shipped] nor
    [Delivered]; it throws [NotCancelable] with the status for an order
    that is, [OrderNotFound] for an identifier within the range of the key
    that no order has, the range error of the store for an identifier
    outside that range, and nothing else. *)
Theorem cancelOrder_outcomes oid db :
  integrity db →
  restock_fits db oid →
  ((cancelOrder oid db).1 = Ok (mkCancelResult oid Cancelled) ↔
   ∃ o, orders (store db) !! oid = Some o ∧
        order_status o ≠ Shipped ∧ order_status o ≠ Delivered) ∧
  (∀ e, (cancelOrder oid db).1 = Throw e →
        (e = OrderNotFound ∧ orders (store db) !! oid = None ∧ int4 oid) ∨
        (e = value_out_of_range ∧ orders (store db) !! oid = None ∧ ¬ int4 oid) ∨
        (∃ o, orders (store db) !! oid = Some o ∧
              (order_status o = Shipped ∨ order_status o = Delivered) ∧
              e = NotCancelable (order_status o))).
Proof.
  intros Hint _.
  pose proof (integrity_references db oid Hint) as Hfk.
  pose proof (cancelOrder_cases oid db) as Hcase.
  split; [split |].
  - intros Hrun. destruct (cancelOrder oid db) as [r db']. cbn in Hrun. subst r.
    inversion Hcase as [| | o Ho Hst | | | o Ho Hst]; subst; exists o; split; try done.
    + rewrite Hst. done.
    + by destruct Hst as (_ & ? & ?).
  - intros (o & Ho & Hs & Hd).
    destruct (decide (order_status o = Cancelled)) as [Hc | Hc].
    + by rewrite (cancel_case_already _ _ _ _ Hcase Ho Hc).
    + by rewrite (cancel_case_cancellable _ _ o _ Hcase Ho).
  - intros e Hrun. destruct (cancelOrder oid db) as [r db']. cbn in Hrun. subst r.
    inversion Hcase as [Hn Hr | Hn Hr | | o Ho Hst | o row Ho Hst Hin Hnone |]; subst.
    + right. by left.
    + by left.
    + do 2 right. by exists o.
    + destruct (Hfk row Hin) as [p Hp]. congruence.
Qed.

Ltac decide_by_computation := apply (bool_decide_unpack _); vm_compute; exact I.

Lemma two_orders_db_integrity : integrity two_orders_db.
Proof.
  split.
  - apply (proj1 (Forall_forall
                    (λ row, is_Some (orders (store two_orders_db) !! item_orderId row)) _)).
    decide_by_computation.
  - apply (proj1 (Forall_forall
                    (λ row, is_Some (products (store two_orders_db) !! item_productId row))
                    _)).
    decide_by_computation.
  - change (map_Forall (λ _ o, is_Some (users (store two_orders_db) !! order_userId o))
              (orders (store two_orders_db))).
    decide_by_computation.
  - apply (proj1 (Forall_forall
                    (λ pay, is_Some (orders (store two_orders_db) !! payment_orderId pay))
                    _)).
    decide_by_computation.
  - decide_by_computation.
  - intros oid [o Ho]. revert oid o Ho.
    change (map_Forall (λ oid _, oid < orders_id_seq two_orders_db)
              (orders (store two_orders_db))).
    decide_by_computation.
  - change (map_Forall
              (λ oid o, rows_total (items_of oid (order_items (store two_orders_db)))
                        = order_totalAmount o)
              (orders (store two_orders_db))).
    decide_by_computation.
Qed.

Lemma cancelOrder_outcomes_witness :
  (cancelOrder 1 two_orders_db).1 = Ok (mkCancelResult 1 Cancelled).
Proof.
  destruct (cancelOrder_outcomes 1 two_orders_db two_orders_db_integrity
              two_orders_db_restock_fits) as [[_ Hrun] _].
  apply Hrun. exists (mkOrder 1 Processing 11360198 1771158600000).
  split; [reflexivity | split; discriminate].
Defined.

(** ** Operations one after the other *)

(** X6. Cancelling an order right after creating it puts every product's
    stock back to what it was before the creation; the order stays, with
    status [Cancelled], and so do its rows and its payment. *)
Theorem create_then_cancel userId items db r db1 :
  integrity db →
  createOrder userId items db = (Ok r, db1) →
  let db2 := (cancelOrder (orderId r) db1).2 in
  (cancelOrder (orderId r) db1).1 = Ok (mkCancelResult (orderId r) Cancelled) ∧
  products (store db2) = products (store db) ∧
  orders (store db2)
  = <[orderId r := mkOrder userId Cancelled (totalAmount r) (clock db)]> (orders (store db)) ∧
  order_items (store db2) = order_items (store db1) ∧
  payments (store db2)
  = payments (store db) ++ [mkPayment (orderId r) (totalAmount r) Succeeded].
Proof.
  intros Hint Hrun.
  pose proof (createOrder_cases userId items db) as Hcase. rewrite Hrun in Hcase.
  apply creation_case_ok in Hcase as (Hu & Hok & Hfresh & -> & ->).
  cbn [orderId totalAmount].
  set (oid := orders_id_seq db). set (P := products (store db)).
  set (o := mkOrder userId Processing (order_total P items) (clock db)).
  pose proof (integrity_created userId items db Hint Hu Hok Hfresh) as Hint1.
  assert (Ho : orders (store (created userId items db)) !! oid = Some o)
    by apply lookup_insert_eq.
  assert (Hfk : items_reference_products (store (created userId items db)) oid).
  { intros row Hin. apply (items_have_product _ Hint1).
    unfold items_of in Hin. by apply list_elem_of_filter in Hin as [_ Hin]. }
  rewrite (cancel_case_open oid _ o _ (cancelOrder_cases oid _) Ho (or_intror eq_refl) Hfk).
  cbn [fst snd]. split; [done |]. split; [| split; [| done]].
  - apply map_eq. intros pid. cbn [cancelled store products].
    rewrite lookup_restock.
    unfold oid. rewrite <- items_of_filter, (items_of_created userId items db Hint Hfresh).
    rewrite recorded_qty_line_rows.
    cbn [created store products]. rewrite lookup_take_stock. fold P.
    destruct (P !! pid) as [p|]; [| done].
    cbn. rewrite add_stock_add. f_equal.
    replace (- ordered_qty pid items + ordered_qty pid items) with 0 by lia.
    apply add_stock_0.
  - cbn [cancelled created store orders]. by rewrite insert_insert_eq.
Qed.

Lemma create_then_cancel_witness :
  products (store (cancelOrder 1 ordered_db).2) = products (store seed_db).
Proof.
  assert (Hrun : createOrder 1 [mkOrderLine 1 2; mkOrderLine 2 3] seed_db
                 = (Ok (mkOrderSummary 1 Processing 11360198), ordered_db))
    by (vm_compute; reflexivity).
  destruct (create_then_cancel 1 _ seed_db _ _ seed_db_integrity Hrun) as (_ & Hprod & _).
  exact Hprod.
Defined.

Lemma view_total_rows P (rows : list OrderItem) :
  view_total (row_view P <$> rows) = rows_total rows.
Proof.
  induction rows as [|row rest IH]; [done |].
  rewrite fmap_cons. cbn [view_total rows_total row_view view_price view_quantity].
  by rewrite IH.
Qed.

Lemma view_total_lines P (items : list OrderLine) :
  view_total (line_view P <$> items) = order_total P items.
Proof.
  induction items as [|item rest IH]; [done |].
  rewrite fmap_cons. cbn [view_total order_total line_view view_price view_quantity].
  by rewrite IH.
Qed.

(** X7. Fetching an order right after creating it returns its key, status
    [Processing], total and creation time, the buyer's identifier and
    email, and one line per requested line, in the caller's order, with the
    product's name, the requested quantity and the price the product had
    when the order was created; the lines add up to the total. *)
Theorem create_then_getOrderDetails userId items db r db1 :
  integrity db →
  createOrder userId items db = (Ok r, db1) →
  ∃ u, users (store db) !! userId = Some u ∧
       getOrderDetails (orderId r) db1
       = (Ok (mkOrderView (orderId r) Processing (totalAmount r) (clock db)
                (mkUserView userId (user_email u))
                (line_view (products (store db)) <$> items)), db1) ∧
       view_total (line_view (products (store db)) <$> items) = totalAmount r.
Proof.
  intros Hint Hrun.
  pose proof (createOrder_cases userId items db) as Hcase. rewrite Hrun in Hcase.
  apply creation_case_ok in Hcase as ([u Hu] & Hok & Hfresh & -> & ->).
  cbn [orderId totalAmount]. exists u. split; [done |]. split; [| apply view_total_lines].
  pose proof (integrity_created userId items db Hint (mk_is_Some _ _ Hu) Hok Hfresh) as Hint1.
  rewrite (getOrderDetails_found (orders_id_seq db) _
             (mkOrder userId Processing (order_total (products (store db)) items) (clock db))
             u).
  - cbn [order_status order_totalAmount order_createdAt order_userId].
    rewrite (items_of_created userId items db Hint Hfresh).
    do 3 f_equal. rewrite <- list_fmap_compose. apply list_fmap_ext.
    intros i item _. cbn. unfold row_view, line_view, name_of. cbn.
    rewrite lookup_take_stock. by destruct (products (store db) !! productId item).
  - apply lookup_insert_eq.
  - done.
  - by apply integrity_references.
Qed.

Lemma create_then_getOrderDetails_witness :
  getOrderDetails 1 ordered_db
  = (Ok (mkOrderView 1 Processing 11360198 1771158600000
           (mkUserView 1 "venkat@example.com")
           [mkItemView 1 "Laptop" 2 5500099; mkItemView 2 "Wireless Mouse" 3 120000]),
     ordered_db).
Proof.
  assert (Hrun : createOrder 1 [mkOrderLine 1 2; mkOrderLine 2 3] seed_db
                 = (Ok (mkOrderSummary 1 Processing 11360198), ordered_db))
    by (vm_compute; reflexivity).
  destruct (create_then_getOrderDetails 1 _ seed_db _ _ seed_db_integrity Hrun)
    as (u & Hu & Hview & _).
  cbn [orderId totalAmount] in Hview. rewrite Hview.
  vm_compute in Hu. injection Hu as <-. reflexivity.
Defined.

(** X8. On a database that satisfies the constraints of the schema, the
    total of every view that [getOrderDetails] returns is the sum over the
    view's lines of price times quantity, also after the order has been
    cancelled or product prices have changed. *)
Theorem getOrderDetails_total oid db v db' :
  integrity db →
  getOrderDetails oid db = (Ok v, db') →
  view_total (view_items v) = view_totalAmount v.
Proof.
  intros Hint Hrun.
  destruct (orders (store db) !! oid) as [o|] eqn:Ho.
  - destruct (orders_have_user db Hint oid o Ho) as [u Hu].
    rewrite (getOrderDetails_found oid db o u Ho Hu (integrity_references db oid Hint))
      in Hrun.
    injection Hrun as <- _. cbn [view_items view_totalAmount].
    rewrite view_total_rows. by apply (totals_add_up db Hint).
  - destruct (decide (int4 oid)) as [Hr | Hr].
    + rewrite (getOrderDetails_missing oid db Ho Hr) in Hrun. discriminate.
    + rewrite (getOrderDetails_unreachable oid db Ho Hr) in Hrun. discriminate.
Qed.

Lemma getOrderDetails_total_witness :
  let v := mkOrderView 1 Processing 11360198 1771158600000
             (mkUserView 1 "venkat@example.com")
             [mkItemView 1 "Laptop" 2 5500099; mkItemView 2 "Wireless Mouse" 3 120000] in
  getOrderDetails 1 ordered_db = (Ok v, ordered_db) ∧
  view_total (view_items v) = view_totalAmount v.
Proof.
  intros v.
  assert (Hrun : getOrderDetails 1 ordered_db = (Ok v, ordered_db))
    by (vm_compute; reflexivity).
  split; [exact Hrun |].
  exact (getOrderDetails_total 1 ordered_db v ordered_db ordered_db_integrity Hrun).
Defined.

(** X9. Cancellation keeps stock non-negative when the rows of the order
    record no negative quantity. *)
Theorem cancelOrder_keeps_stock_nonneg oid db :
  stock_nonneg db →
  (∀ row, row ∈ items_of oid (order_items (store db)) → 0 ≤ item_quantity row) →
  stock_nonneg (cancelOrder oid db).2.
Proof.
  intros Hnn Hrows.
  destruct (cancel_case_state _ _ _ (cancelOrder_cases oid db)) as [-> | (o & Ho & _ & ->)];
    [done |].
  intros pid p' Hp'. cbn [cancelled store products] in Hp'.
  rewrite lookup_restock, <- items_of_filter in Hp'.
  destruct (products (store db) !! pid) as [p|] eqn:Hp; [| done].
  injection Hp' as <-. cbn [add_stock product_stock]. specialize (Hnn pid p Hp).
  assert (0 ≤ recorded_qty pid (items_of oid (order_items (store db)))); [| lia].
  revert Hrows. generalize (items_of oid (order_items (store db))). intros rows Hrows.
  induction rows as [|row rest IH]; [done |]. cbn [recorded_qty].
  assert (0 ≤ recorded_qty pid rest) by (apply IH; intros; apply Hrows; by right).
  assert (0 ≤ item_quantity row) by (apply Hrows; by left).
  case_decide; lia.
Qed.

Lemma ordered_db_stock_nonneg : stock_nonneg ordered_db.
Proof.
  change (map_Forall (λ _ p, 0 ≤ product_stock p) (products (store ordered_db))).
  apply (bool_decide_unpack _). vm_compute. exact I.
Qed.

Lemma cancelOrder_keeps_stock_nonneg_witness : stock_nonneg (cancelOrder 1 ordered_db).2.
Proof.
  apply (cancelOrder_keeps_stock_nonneg 1 ordered_db).
  - apply ordered_db_stock_nonneg.
  - intros row Hin. vm_compute in Hin.
    apply elem_of_cons in Hin as [-> | Hin]; [cbn; lia |].
    apply elem_of_cons in Hin as [-> | Hin]; [cbn; lia |].
    by apply elem_of_nil in Hin.
Defined.

(** ** Messages and the statuses they map to *)

Lemma prefix_append (s t : string) : String.prefix s (s +:+ t) = true.
Proof.
  induction s as [|a s IH]; [by destruct t |].
  change (String.prefix (String a s) (String a (s +:+ t)) = true).
  simpl. destruct (Ascii.ascii_dec a a) as [_ | Hne]; [exact IH | done].
Qed.

Lemma includes_prefix (needle t : string) : includes (needle +:+ t) needle = true.
Proof.
  unfold includes. destruct needle as [|a needle].
  - by destruct t.
  - change (String a needle +:+ t) with (String a (needle +:+ t)).
    cbn [String.index].
    change (String a (needle +:+ t)) with (String a needle +:+ t).
    by rewrite prefix_append.
Qed.

Lemma includes_append_r (s t needle : string) :
  includes t needle = true → includes (s +:+ t) needle = true.
Proof.
  unfold includes. intros Ht. induction s as [|a s IH]; [done |].
  change (String a s +:+ t) with (String a (s +:+ t)). cbn [String.index].
  destruct (String.prefix needle (String a (s +:+ t))); [done |].
  by destruct (String.index 0 needle (s +:+ t)).
Qed.

Lemma message_not_found_400 e :
  e = UserNotFound ∨ (∃ pid, e = ProductNotFound pid) ∨
  (∃ name available requested, e = InsufficientStock name available requested) →
  includes (message e) "not found" || includes (message e) "Insufficient stock" = true.
Proof.
  intros [-> | [[pid ->] | (name & available & requested & ->)]].
  - reflexivity.
  - apply orb_true_iff. left. cbn [message].
    apply includes_append_r, includes_append_r. reflexivity.
  - apply orb_true_iff. right. cbn [message].
    apply (includes_prefix "Insufficient stock"
             (" for product " +:+ name +:+ ". Available: " +:+
              pretty available +:+ ", Requested: " +:+ pretty requested)).
Qed.

(** ** What the create-order handler hands to the engine *)

Lemma body_unreadable_500 body db :
  ¬ readable body →
  ∃ e, property body "userId" db = (Throw e, db) ∧
       includes (message e) "not found" = false ∧
       includes (message e) "Insufficient stock" = false.
Proof.
  intros Hnr. destruct body; try (exfalso; apply Hnr; by split).
  - eexists. split; [reflexivity |]. split; vm_compute; reflexivity.
  - eexists. split; [reflexivity |]. split; vm_compute; reflexivity.
Qed.

Section CreateOrderRoute.

Variable StringToNumber : string → option Z.
Variable ToPrimitive : JsValue → string.

Lemma validate_items_outcome l : ∀ db,
  (validate_items StringToNumber ToPrimitive l db).2 = db ∧
  match (validate_items StringToNumber ToPrimitive l db).1 with
  | Ok None => ∀ item, item ∈ l → item_accepted StringToNumber ToPrimitive item
  | Ok (Some response) => response = invalid_item
  | Throw e =>
      includes (message e) "not found" = false ∧
      includes (message e) "Insufficient stock" = false
  end.
Proof.
  induction l as [|item rest IH]; intros db.
  - split; [done |]. intros item Hin. by apply elem_of_nil in Hin.
  - simpl validate_items. rewrite bind_run.
    destruct (readable_dec item) as [Hr | Hnr].
    + rewrite item_rejected_readable by done.
      destruct (negb _ || _ || _) eqn:Hrej.
      * by rewrite ret_run.
      * destruct (IH db) as [Hst Hres]. split; [done |].
        destruct (validate_items _ _ rest db) as [[[r|] | e] d]; simpl in *; [done | | done].
        intros it Hin. apply elem_of_cons in Hin as [-> | Hin]; [| by apply Hres].
        apply orb_false_iff in Hrej as [Hrej Hle].
        apply orb_false_iff in Hrej as [Hp Hq].
        apply negb_false_iff in Hp, Hq. done.
    + unfold item_rejected. rewrite bind_run.
      destruct (property_unreadable item db Hnr) as (e & -> & Hmsg). done.
Qed.

Lemma validate_items_accepted l db :
  (∀ item, item ∈ l → item_accepted StringToNumber ToPrimitive item) →
  validate_items StringToNumber ToPrimitive l db = (Ok None, db).
Proof.
  induction l as [|item rest IH]; intros Hall; [done |].
  destruct (Hall item) as (Hr & Hp & Hq & Hle); [by left |].
  simpl validate_items. rewrite bind_run, item_rejected_readable by done.
  rewrite Hp, Hq, Hle. cbn [negb orb]. apply IH. intros it Hin. apply Hall. by right.
Qed.

(** X10. The handler calls the engine only for a body that passes both
    validations: a readable body with a truthy [userId] and a non-empty
    array of items, every item readable with a truthy [productId] and a
    truthy [quantity] that is not [<= 0].  For every other body the
    response is 400 or 500, the same whatever the engine is, and the
    database is untouched. *)
Theorem createOrder_handler_guards_engine body db :
  body_accepted StringToNumber ToPrimitive body ∨
  ∃ response,
    (response = invalid_request ∨ response = invalid_item ∨
     response = internal_server_error) ∧
    ∀ svc, createOrder_handler StringToNumber ToPrimitive svc body db = (response, db).
Proof.
  unfold createOrder_handler, createOrder_try.
  destruct (readable_dec body) as [Hr | Hnr].
  2:{ right. exists internal_server_error. split; [by do 2 right |]. intros svc.
      rewrite bind_run.
      destruct (body_unreadable_500 body db Hnr) as (e & -> & -> & ->). done. }
  destruct (negb (truthy (item_field body "userId"))
            || negb (truthy (item_field body "items"))
            || negb (isArray (item_field body "items"))
            || bool_decide (length (elements (item_field body "items")) = 0%nat))
    eqn:Hguard.
  { right. exists invalid_request. split; [by left |]. intros svc.
    rewrite !bind_run, !property_readable by done.
    rewrite !bind_run, !property_readable by done.
    by rewrite Hguard. }
  pose proof Hguard as Hg.
  apply orb_false_iff in Hg as [Hg Hlen].
  apply orb_false_iff in Hg as [Hg Harr].
  apply orb_false_iff in Hg as [Hu Hi].
  apply negb_false_iff in Hu, Hi, Harr. apply bool_decide_eq_false in Hlen.
  destruct (validate_items_outcome (elements (item_field body "items")) db) as [Hst Hres].
  destruct (validate_items _ _ (elements (item_field body "items")) db)
    as [[[r|] | e] d] eqn:Hval; simpl in Hst, Hres; subst d.
  - subst r. right. exists invalid_item. split; [right; by left |]. intros svc.
    rewrite !bind_run, !property_readable by done.
    rewrite !bind_run, !property_readable by done.
    by rewrite Hguard, bind_run, Hval.
  - left. split; [done |]. split; [done |]. split; [done |]. split; [| done].
    intros Hnil. rewrite Hnil in Hlen. by apply Hlen.
  - destruct Hres as [Hm1 Hm2]. right.
    exists internal_server_error. split; [by do 2 right |]. intros svc.
    rewrite !bind_run, !property_readable by done.
    rewrite !bind_run, !property_readable by done.
    by rewrite Hguard, bind_run, Hval, Hm1, Hm2.
Qed.

Lemma accepted_body_reaches_engine svc body db :
  body_accepted StringToNumber ToPrimitive body →
  createOrder_try StringToNumber ToPrimitive svc body db
  = (svc (item_field body "userId") (item_field body "items")
       ≫= (λ order, mret (mkResponse 201 (OrderBody order)))) db.
Proof.
  intros (Hr & Hu & Harr & Hne & Hall). unfold createOrder_try.
  rewrite !bind_run, !property_readable by done.
  rewrite !bind_run, !property_readable by done.
  rewrite Hu, Harr. cbn [negb orb].
  assert (Hi : truthy (item_field body "items") = true)
    by (by destruct (item_field body "items")).
  rewrite Hi. cbn [negb orb].
  rewrite bool_decide_eq_false_2 by (by destruct (elements (item_field body "items"))).
  by rewrite bind_run, validate_items_accepted.
Qed.

(** X11. For a body that passes the validations, the handler answers from
    what the engine does with the body's [userId] and [items]: 201 with
    the order when the engine returns; 400 with the engine's message when
    it throws [UserNotFound], [ProductNotFound] or [InsufficientStock];
    500 [Internal server error] when it throws [PaymentFailed] or a
    unique-constraint error.  The database is as the engine left it. *)
Theorem createOrder_handler_replies svc body db :
  body_accepted StringToNumber ToPrimitive body →
  let run := svc (item_field body "userId") (item_field body "items") db in
  let reply := createOrder_handler StringToNumber ToPrimitive svc body db in
  (∀ order, run.1 = Ok order → reply = (mkResponse 201 (OrderBody order), run.2)) ∧
  (∀ e, run.1 = Throw e →
     e = UserNotFound ∨ (∃ pid, e = ProductNotFound pid) ∨
     (∃ name available requested, e = InsufficientStock name available requested) →
     reply = (mkResponse 400 (ErrorBody (message e)), run.2)) ∧
  (∀ e, run.1 = Throw e →
     e = PaymentFailed ∨ e = unique_constraint_failed →
     reply = (internal_server_error, run.2)).
Proof.
  intros Hacc run reply. unfold reply, createOrder_handler.
  rewrite (accepted_body_reaches_engine svc body db Hacc), bind_run. fold run.
  destruct run as [[order | e] db']; cbn [fst snd].
  - split; [| split]; [| done | done]. intros o Ho. by injection Ho as <-.
  - split; [done |]. split.
    + intros e' He' Hkind. injection He' as <-.
      by rewrite (message_not_found_400 e Hkind).
    + intros e' He' [-> | ->]; by injection He' as ->.
Qed.

End CreateOrderRoute.

Lemma one_item_body_accepted StringToNumber ToPrimitive :
  body_accepted StringToNumber ToPrimitive one_item_body.
Proof.
  split; [by split |]. split; [reflexivity |]. split; [reflexivity |]. split; [done |].
  intros item Hin. cbn in Hin. apply list_elem_of_singleton in Hin as ->.
  split; [by split |]. done.
Qed.

Lemma createOrder_handler_replies_witness :
  let svc := λ (_ _ : JsValue), (throw PaymentFailed : Tx OrderSummary) in
  createOrder_handler (λ _, None) (λ _, ""%string) svc one_item_body seed_db
  = (internal_server_error, seed_db).
Proof.
  intros svc.
  destruct (createOrder_handler_replies (λ _, None) (λ _, ""%string) svc one_item_body
              seed_db (one_item_body_accepted _ _)) as (_ & _ & H500).
  apply (H500 PaymentFailed); [reflexivity | by left].
Defined.

(** ** The handlers of [GET /orders/:orderId] and [PUT /orders/:orderId/cancel] *)

Section OrderRouteFacts.

Variable parseInt : string → option Z.

(** X12. [getOrder] never changes the database.  On a database that
    satisfies the constraints of the schema it answers 400 [Invalid order
    ID] when the parameter does not parse; when no order has the parsed
    identifier, 404 [Order not found] if the identifier is in the range of
    the [INTEGER] key and 500 [Internal server error] if it is not; and
    otherwise 200 with the view of the order, whose lines are the rows of
    [order_items] that carry the order's key. *)
Theorem getOrder_handler_replies param db :
  (getOrder_handler parseInt param db).2 = db ∧
  (integrity db →
   match parseInt param with
   | None =>
       (getOrder_handler parseInt param db).1 = mkReply 400 (JsonError "Invalid order ID")
   | Some oid =>
       match orders (store db) !! oid with
       | None =>
           (int4 oid →
            (getOrder_handler parseInt param db).1
            = mkReply 404 (JsonError "Order not found")) ∧
           (¬ int4 oid →
            (getOrder_handler parseInt param db).1
            = mkReply 500 (JsonError "Internal server error"))
       | Some o =>
           ∃ u, users (store db) !! order_userId o = Some u ∧
                (getOrder_handler parseInt param db).1
                = mkReply 200
                    (JsonBody
                       (mkOrderView oid (order_status o) (order_totalAmount o)
                          (order_createdAt o)
                          (mkUserView (order_userId o) (user_email u))
                          ((λ row, mkItemView (item_productId row)
                                     (from_option product_name ""
                                        (products (store db) !! item_productId row))
                                     (item_quantity row) (item_price row))
                             <$> filter (λ row, item_orderId row = oid)
                                   (order_items (store db)))))
       end
   end).
Proof.
  unfold getOrder_handler. split.
  - destruct (parseInt param) as [oid|]; [| done].
    pose proof (getOrderDetails_read_only oid db) as Hro.
    destruct (getOrderDetails oid db) as [[v | e] db']; cbn in Hro; subst db'; [done |].
    by destruct (String.eqb (message e) "Order not found").
  - intros Hint. destruct (parseInt param) as [oid|]; [| done].
    destruct (orders (store db) !! oid) as [o|] eqn:Ho.
    + destruct (orders_have_user db Hint oid o Ho) as [u Hu]. exists u. split; [done |].
      by rewrite (getOrderDetails_found oid db o u Ho Hu (integrity_references db oid Hint)).
    + split; intros Hr.
      * by rewrite (getOrderDetails_missing oid db Ho Hr).
      * by rewrite (getOrderDetails_unreachable oid db Ho Hr).
Qed.

(** X13. On a database that satisfies the constraints of the schema,
    [cancelOrder] of the controller answers 400 [Invalid order ID] when the
    parameter does not parse; when no order has the parsed identifier, 404
    [Order not found] if the identifier is in the range of the [INTEGER]
    key and 500 [Internal server error] if it is not; 200 with the key and
    status [cancelled], the database untouched, when the order is already
    cancelled; 400 with the message naming the status when the order is
    shipped or delivered; and for an order of any other status, when
    putting back its quantities fits the column of [stock], 200 with the
    key and status [cancelled], the order being cancelled in the database.
    The database is untouched in every case but the last. *)
Theorem cancelOrder_handler_replies param db :
  integrity db →
  match parseInt param with
  | None =>
      cancelOrder_handler parseInt param db
      = (mkReply 400 (JsonError "Invalid order ID"), db)
  | Some oid =>
      match orders (store db) !! oid with
      | None =>
          (int4 oid →
           cancelOrder_handler parseInt param db
           = (mkReply 404 (JsonError "Order not found"), db)) ∧
          (¬ int4 oid →
           cancelOrder_handler parseInt param db
           = (mkReply 500 (JsonError "Internal server error"), db))
      | Some o =>
          if decide (order_status o = Cancelled)
          then cancelOrder_handler parseInt param db
               = (mkReply 200 (JsonBody (mkCancelResult oid Cancelled)), db)
          else if decide (order_status o = Shipped ∨ order_status o = Delivered)
          then cancelOrder_handler parseInt param db
               = (mkReply 400
                    (JsonError ("Cannot cancel order with status: "
                                +:+ order_status o)), db)
          else restock_fits db oid →
               (cancelOrder_handler parseInt param db).1
               = mkReply 200 (JsonBody (mkCancelResult oid Cancelled)) ∧
               orders (store (cancelOrder_handler parseInt param db).2) !! oid
               = Some (mkOrder (order_userId o) Cancelled (order_totalAmount o)
                         (order_createdAt o))
      end
  end.
Proof.
  intros Hint. unfold cancelOrder_handler.
  destruct (parseInt param) as [oid|]; [| done].
  pose proof (cancelOrder_cases oid db) as Hcase.
  destruct (orders (store db) !! oid) as [o|] eqn:Ho.
  - destruct (decide (order_status o = Cancelled)) as [Hc | Hc].
    { by rewrite (cancel_case_already _ _ _ _ Hcase Ho Hc). }
    destruct (decide (order_status o = Shipped ∨ order_status o = Delivered)) as [Hs | Hs].
    + rewrite (cancel_case_closed _ _ _ _ Hcase Ho Hs).
      destruct Hs as [Hs | Hs]; rewrite Hs; reflexivity.
    + intros _.
      rewrite (cancel_case_cancellable _ _ o _ Hcase Ho);
        [| split; [done | split; intros Heq; apply Hs; auto]
         | by apply integrity_references].
      cbn. by rewrite lookup_insert_eq.
  - split; intros Hr.
    + by rewrite (cancel_case_missing _ _ _ Hcase Ho Hr).
    + by rewrite (cancel_case_unreachable _ _ _ Hcase Ho Hr).
Qed.

(** X14. Repeating [PUT /orders/:orderId/cancel] after a 200 gives the same
    answer and changes nothing more. *)
Theorem cancelOrder_handler_idempotent param db reply db1 :
  cancelOrder_handler parseInt param db = (reply, db1) →
  reply_status reply = 200 →
  cancelOrder_handler parseInt param db1 = (reply, db1).
Proof.
  unfold cancelOrder_handler. intros Hrun H200.
  destruct (parseInt param) as [oid|]; [| injection Hrun as <- <-; discriminate].
  pose proof (cancelOrder_cases oid db) as Hcase.
  destruct (cancelOrder oid db) as [[r | e] db'].
  - injection Hrun as <- <-.
    inversion Hcase as [| | o Ho Hst | | | o Ho Hst Hfk]; subst.
    + by rewrite (cancel_case_already _ _ _ _ (cancelOrder_cases oid _) Ho Hst).
    + rewrite (cancel_case_already oid _ (with_status Cancelled o) _
                 (cancelOrder_cases oid _)); [done | apply lookup_insert_eq | done].
  - destruct (String.eqb (message e) "Order not found");
      [injection Hrun as <- <-; discriminate |].
    destruct (includes (message e) "Cannot cancel"); injection Hrun as <- <-; discriminate.
Qed.

End OrderRouteFacts.

Lemma getOrder_handler_replies_witness :
  (getOrder_handler (λ _, Some 7) "7" two_orders_db).1
  = mkReply 404 (JsonError "Order not found") ∧
  (getOrder_handler (λ _, Some 3000000000) "3000000000" two_orders_db).1
  = mkReply 500 (JsonError "Internal server error") ∧
  (getOrder_handler (λ _, Some 2) "2" two_orders_db).1
  = mkReply 200
      (JsonBody (mkOrderView 2 Pending 5670099 1771158700000
                   (mkUserView 2 "sai@example.com")
                   [mkItemView 1 "Laptop" 1 5500099;
                    mkItemView 3 "USB-C Cable" 1 170000])).
Proof.
  destruct (getOrder_handler_replies (λ _, Some 7) "7" two_orders_db) as [_ H7].
  destruct (getOrder_handler_replies (λ _, Some 3000000000) "3000000000" two_orders_db)
    as [_ Hfar].
  destruct (getOrder_handler_replies (λ _, Some 2) "2" two_orders_db) as [_ H2].
  split; [| split].
  - apply (H7 two_orders_db_integrity). unfold int4. lia.
  - apply (Hfar two_orders_db_integrity). unfold int4. lia.
  - destruct (H2 two_orders_db_integrity) as (u & Hu & Hreply).
    rewrite Hreply. vm_compute in Hu. injection Hu as <-. vm_compute. reflexivity.
Defined.

Lemma cancelOrder_handler_replies_witness :
  (cancelOrder_handler (λ _, Some 1) "1" two_orders_db).1
  = mkReply 200 (JsonBody (mkCancelResult 1 Cancelled)) ∧
  orders (store (cancelOrder_handler (λ _, Some 1) "1" two_orders_db).2) !! 1
  = Some (mkOrder 1 Cancelled 11360198 1771158600000) ∧
  cancelOrder_handler (λ _, Some 3000000000) "3000000000" two_orders_db
  = (mkReply 500 (JsonError "Internal server error"), two_orders_db).
Proof.
  pose proof (cancelOrder_handler_replies (λ _, Some 1) "1" two_orders_db
                two_orders_db_integrity) as H1.
  pose proof (cancelOrder_handler_replies (λ _, Some 3000000000) "3000000000"
                two_orders_db two_orders_db_integrity) as Hfar.
  cbn beta iota in H1, Hfar.
  split; [| split].
  - exact (proj1 (H1 two_orders_db_restock_fits)).
  - exact (proj2 (H1 two_orders_db_restock_fits)).
  - apply Hfar. unfold int4. lia.
Defined.

Lemma cancelOrder_handler_idempotent_witness :
  let first := cancelOrder_handler (λ _, Some 1) "1" ordered_db in
  cancelOrder_handler (λ _, Some 1) "1" first.2 = first.
Proof.
  intros first.
  pose proof (cancelOrder_handler_idempotent (λ _, Some 1) "1" ordered_db first.1 first.2)
    as Hagain.
  rewrite <- surjective_pairing in Hagain.
  apply Hagain; [reflexivity | vm_compute; reflexivity].
Defined.

(** ** The product listing *)

Lemma listing_elem (P : gmap Z Product) v :
  v ∈ format_product <$> map_to_list P ↔
  ∃ p, P !! listed_id v = Some p ∧
       v = mkProductView (listed_id v) (product_name p) (product_price p) (product_stock p).
Proof.
  rewrite list_elem_of_fmap. split.
  - intros ([id p] & -> & Hin). apply elem_of_map_to_list in Hin. by exists p.
  - intros (p & Hp & Hv). exists (listed_id v, p). split; [done |].
    by apply elem_of_map_to_list.
Qed.

(** X15. [getAllProducts] answers 200 and leaves the database as it was; its
    list holds every product exactly once, sold-out products included,
    with the product's key, name, price and current stock, and nothing
    else. *)
Theorem getAllProducts_lists db :
  ∃ l, getAllProducts db = (mkReply 200 (JsonBody l), db) ∧
       NoDup (listed_id <$> l) ∧
       length l = size (products (store db)) ∧
       ∀ v, v ∈ l ↔
            ∃ p, products (store db) !! listed_id v = Some p ∧
                 v = mkProductView (listed_id v) (product_name p) (product_price p)
                       (product_stock p).
Proof.
  exists (format_product <$> map_to_list (products (store db))).
  split; [done |]. split; [| split].
  - rewrite <- list_fmap_compose.
    replace (listed_id ∘ format_product) with (fst : Z * Product → Z) by done.
    apply NoDup_fst_map_to_list.
  - by rewrite length_fmap, length_map_to_list.
  - apply listing_elem.
Qed.

(** X16. After an order has been created the listing shows, for every
    product, the stock it had before less the units the order asked for,
    under the same name and price. *)
Theorem create_then_getAllProducts userId items db r db1 :
  createOrder userId items db = (Ok r, db1) →
  ∃ l, getAllProducts db1 = (mkReply 200 (JsonBody l), db1) ∧
       ∀ v, v ∈ l ↔
            ∃ p, products (store db) !! listed_id v = Some p ∧
                 v = mkProductView (listed_id v) (product_name p) (product_price p)
                       (product_stock p - ordered_qty (listed_id v) items).
Proof.
  intros Hrun.
  pose proof (createOrder_cases userId items db) as Hcase. rewrite Hrun in Hcase.
  apply creation_case_ok in Hcase as (_ & _ & _ & _ & ->).
  exists (format_product <$> map_to_list (products (store (created userId items db)))).
  split; [done |]. intros v. rewrite listing_elem.
  cbn [created store products]. rewrite lookup_take_stock. split.
  - intros (p' & Hp' & Hv).
    destruct (products (store db) !! listed_id v) as [p|]; [| done].
    injection Hp' as <-. exists p. split; [done |]. rewrite Hv. reflexivity.
  - intros (p & Hp & Hv). rewrite Hp. eexists. split; [reflexivity |].
    rewrite Hv. reflexivity.
Qed.

Lemma create_then_getAllProducts_witness :
  ∃ l, getAllProducts ordered_db = (mkReply 200 (JsonBody l), ordered_db) ∧
       mkProductView 1 "Laptop" 5500099 8 ∈ l ∧
       mkProductView 5 "iPhone" 10000000 0 ∈ l.
Proof.
  assert (Hrun : createOrder 1 [mkOrderLine 1 2; mkOrderLine 2 3] seed_db
                 = (Ok (mkOrderSummary 1 Processing 11360198), ordered_db))
    by (vm_compute; reflexivity).
  destruct (create_then_getAllProducts 1 _ seed_db _ _ Hrun) as (l & Hl & Hin).
  exists l. split; [exact Hl |]. split; apply Hin.
  - exists (mkProduct "Laptop" 5500099 10). split; reflexivity.
  - exists (mkProduct "iPhone" 10000000 0). split; reflexivity.
Defined.

(** ** One order after another *)

(** X17. What one order has taken is not there for the next.  After an
    order has been created, an order of [q] units of a product by an
    existing user throws [InsufficientStock], naming what the first order
    left, when [q] exceeds it, and leaves the database as it was.  When
    [q] is not negative and does not exceed what is left, the constraints
    of the schema held, and what the second order writes fits its columns
    (the stock left, the price, the total and the next key), the second
    order is created under the next key and the product's stock is what
    the first order left less [q]. *)
Theorem create_then_create userId items db r db1 userId' pid q p :
  createOrder userId items db = (Ok r, db1) →
  is_Some (users (store db) !! userId') →
  products (store db) !! pid = Some p →
  let remaining := product_stock p - ordered_qty pid items in
  (remaining < q →
   createOrder userId' [mkOrderLine pid q] db1
   = (Throw (InsufficientStock (product_name p) remaining q), db1)) ∧
  (0 ≤ q ≤ remaining → integrity db →
   int4 remaining → decimal_10_2 (product_price p) →
   decimal_10_2 (product_price p * q) → int4 (orders_id_seq db + 1) →
   (createOrder userId' [mkOrderLine pid q] db1).1
   = Ok (mkOrderSummary (orders_id_seq db + 1) Processing (product_price p * q)) ∧
   products (store (createOrder userId' [mkOrderLine pid q] db1).2) !! pid
   = Some (mkProduct (product_name p) (product_price p) (remaining - q))).
Proof.
  intros Hrun Hu' Hp remaining.
  pose proof (createOrder_cases userId items db) as Hcase. rewrite Hrun in Hcase.
  apply creation_case_ok in Hcase as (Hu & Hok & Hfresh & -> & ->).
  assert (Hp1 : products (store (created userId items db)) !! pid
                = Some (mkProduct (product_name p) (product_price p) remaining)).
  { cbn [created store products]. rewrite lookup_take_stock, Hp. cbn.
    unfold add_stock, remaining. do 2 f_equal. }
  split.
  - intros Hlt.
    eapply (creation_case_first_failure _ userId' _ (created userId items db) 0%nat);
      [exact Hu' | | apply createOrder_cases].
    exists (mkOrderLine pid q). split; [done |]. split; [intros i it Hi; lia |].
    do 2 right. eexists. split; [exact Hp1 |]. cbn. split; [lia |]. f_equal; lia.
  - intros [_ Hle] Hint _ _ _ _.
    pose proof (integrity_created userId items db Hint Hu Hok Hfresh) as Hint1.
    rewrite (createOrder_progress userId' [mkOrderLine pid q] _ Hint1 Hu').
    + cbn [fst snd]. split.
      * cbn [created orders_id_seq order_total]. unfold price_of.
        cbn [productId quantity]. rewrite Hp1. cbn. do 2 f_equal. lia.
      * cbn [created store products]. rewrite lookup_take_stock.
        cbn [created store products] in Hp1. rewrite Hp1. cbn.
        rewrite decide_True by done. unfold add_stock. cbn. do 2 f_equal. lia.
    + intros [|i] it Hi; [| done]. injection Hi as <-.
      eexists. split; [exact Hp1 |]. cbn. lia.
Qed.

Lemma create_then_create_witness :
  createOrder 2 [mkOrderLine 1 9] ordered_db
  = (Throw (InsufficientStock "Laptop" 8 9), ordered_db) ∧
  (createOrder 2 [mkOrderLine 1 8] ordered_db).1
  = Ok (mkOrderSummary 2 Processing 44000792) ∧
  products (store (createOrder 2 [mkOrderLine 1 8] ordered_db).2) !! 1
  = Some (mkProduct "Laptop" 5500099 0).
Proof.
  assert (Hrun : createOrder 1 [mkOrderLine 1 2; mkOrderLine 2 3] seed_db
                 = (Ok (mkOrderSummary 1 Processing 11360198), ordered_db))
    by (vm_compute; reflexivity).
  destruct (create_then_create 1 _ seed_db _ _ 2 1 9 (mkProduct "Laptop" 5500099 10) Hrun)
    as [Hshort _]; [by eexists | reflexivity |].
  destruct (create_then_create 1 _ seed_db _ _ 2 1 8 (mkProduct "Laptop" 5500099 10) Hrun)
    as [_ Hnext]; [by eexists | reflexivity |].
  split; [apply Hshort; vm_compute; reflexivity |].
  apply Hnext.
  - vm_compute. split; discriminate.
  - apply seed_db_integrity.
  - decide_by_computation.
  - decide_by_computation.
  - decide_by_computation.
  - decide_by_computation.
Defined.
